(** * analyze_features.py: eligibility filter and ranking of feature records

    A shallow embedding of the script [analyze_features.py].  The script
    reads [feature_list.json], collects the 1-based numbers of the
    features that already pass, filters the remaining features through
    five criteria, sorts the survivors and prints the first ten.

    Values read from the file are JSON values as [json.load] returns
    them; a Python exception is an explicit error result; the standard
    output is the list of lines printed so far.  The standard output
    is a UTF-8 text stream with the default error handler, as Python
    opens it on a UTF-8 locale. *)

From Stdlib Require Import ZArith Ascii String Floats.SpecFloat.
From stdpp Require Import gmap strings list sorting.

Set Warnings "-register-all,-clear-no-such-hyp".

Local Open Scope Z_scope.
Local Open Scope string_scope.
Local Open Scope list_scope.

(** ** Python values *)

(** What [json.load] returns: [None], [bool], [int], [float], [str],
    [list] and [dict] with [str] keys.  A [str] is kept as the string of
    its UTF-8 bytes, on which equality and the substring test agree with
    those on code points.  A lone surrogate, which [json.load] takes
    from an escape such as [\ud800], is kept as the three bytes the
    same scheme gives it: [ED], then [A0]-[BF], then [80]-[BF]. *)
Inductive json : Type :=
| JNull
| JBool (b : bool)
| JInt (z : Z)
| JFloat (f : spec_float)
| JStr (s : string)
| JArr (l : list json)
| JObj (m : gmap string json).

(** The exceptions the script can die of. *)
Inductive exn : Type :=
| FileNotFoundError
| JSONDecodeError
| AttributeError
| TypeError
| UnicodeEncodeError.

Inductive result (A : Type) : Type :=
| OK (a : A)
| Raise (e : exn).
Arguments OK {A} a.
Arguments Raise {A} e.

Definition result_bind {A B} (f : A -> result B) (r : result A) : result B :=
  match r with
  | OK a => f a
  | Raise e => Raise e
  end.

#[global] Instance result_mbind : MBind result := @result_bind.
#[global] Instance result_mret : MRet result := @OK.

(** [bool(v)]: the truth value Python gives to [v] under [if]. *)
Definition truthy (v : json) : bool :=
  match v with
  | JNull => false
  | JBool b => b
  | JInt z => negb (Z.eqb z 0)
  | JFloat (S754_zero _) => false
  | JFloat _ => true
  | JStr s => negb (String.eqb s "")
  | JArr l => match l with [] => false | _ => true end
  | JObj m => negb (Nat.eqb (size m) 0)
  end.

(** [feature.get(key, default)]: only a [dict] has the method. *)
Definition get (feature : json) (key : string) (dflt : json) : result json :=
  match feature with
  | JObj m => OK (default dflt (m !! key))
  | _ => Raise AttributeError
  end.

(** [iter(v)], as [enumerate], [for] and a generator expression call it.
    A [str] yields its code points: a new one starts at every byte that
    is not a UTF-8 continuation byte. *)
Definition is_continuation (a : ascii) : bool :=
  let n := N_of_ascii a in (128 <=? n)%N && (n <? 192)%N.

Fixpoint code_points (s : string) : list string :=
  match s with
  | EmptyString => []
  | String a s' =>
      let cs := code_points s' in
      match s' with
      | String b _ =>
          if is_continuation b then
            match cs with
            | c :: cs' => String a c :: cs'
            | [] => [String a EmptyString]
            end
          else String a EmptyString :: cs
      | EmptyString => String a EmptyString :: cs
      end
  end.

(** A [dict] yields its keys.  Python yields them in insertion order,
    the map in the order of its own; the script behaves the same on
    every order, since each key is a [str]: as a feature it has no
    [get], as a dependency it is in no set of [int]. *)
Definition py_iter (v : json) : result (list json) :=
  match v with
  | JArr l => OK l
  | JStr s => OK (JStr <$> code_points s)
  | JObj m => OK (JStr <$> (map_to_list m).*1)
  | JNull | JBool _ | JInt _ | JFloat _ => Raise TypeError
  end.

(** [f == n] for a [float] and an [int]: Python compares the exact
    values. *)
Definition float_eq_int (f : spec_float) (n : Z) : bool :=
  match f with
  | S754_zero _ => Z.eqb n 0
  | S754_finite s m e =>
      let sm := if s then Z.neg m else Z.pos m in
      if (0 <=? e)%Z then Z.eqb (sm * 2 ^ e) n else Z.eqb sm (n * 2 ^ (- e))
  | S754_infinity _ | S754_nan => false
  end.

(** [dep in passing_tests] on a set of [int]: the element is hashed
    first, which a [list] or a [dict] refuses; then [True == 1],
    [False == 0] and a [float] equals the [int] of the same value. *)
Definition in_set (dep : json) (passing_tests : gset Z) : result bool :=
  match dep with
  | JNull | JStr _ => OK false
  | JBool b => OK (bool_decide ((if b then 1 else 0) ∈ passing_tests))
  | JInt z => OK (bool_decide (z ∈ passing_tests))
  | JFloat f => OK (existsb (float_eq_int f) (elements passing_tests))
  | JArr _ | JObj _ => Raise TypeError
  end.

(** [sub in s] on two [str]. *)
Fixpoint str_in (sub s : string) : bool :=
  String.prefix sub s ||
  match s with
  | EmptyString => false
  | String _ s' => str_in sub s'
  end.

(** [v in ['simple', 'medium']]: list membership is by [==], and only a
    [str] equals a [str]. *)
Definition in_strs (v : json) (l : list string) : bool :=
  match v with
  | JStr s => existsb (String.eqb s) l
  | _ => false
  end.

(** ** The passing tests *)

(** The first loop, from index [i] on:
<<
    for i, feature in enumerate(features):
        if feature.get('passes', False):
            passing_tests.add(i + 1)
>> *)
Fixpoint passing_loop (i : Z) (features : list json) (passing_tests : gset Z)
  : result (gset Z) :=
  match features with
  | [] => OK passing_tests
  | feature :: rest =>
      p ← get feature "passes" (JBool false);
      passing_loop (i + 1) rest
        (if truthy p then passing_tests ∪ {[ i + 1 ]} else passing_tests)
  end.

Definition passing_tests (features : json) : result (gset Z) :=
  fs ← py_iter features;
  passing_loop 0 fs ∅.

(** ** Candidates *)

(** The [dict] appended to [candidates]. *)
Record candidate : Type := Candidate {
  test_num : Z;
  description : json;
  complexity : json;
  dependencies : json;
  category : json
}.

Definition frontend_keywords : list string :=
  ["ui"; "page"; "navigate"; "button"; "display"; "viewer"; "interface";
   "layout"; "design"; "responsive"; "dark mode"; "logout"; "settings";
   "loading"; "error"; "form"; "input"; "modal"; "dialog"].

(** [all(dep in passing_tests for dep in deps)], lazily from the left. *)
Fixpoint all_in (deps : list json) (passing_tests : gset Z) : result bool :=
  match deps with
  | [] => OK true
  | dep :: rest =>
      b ← in_set dep passing_tests;
      if b : bool then all_in rest passing_tests else OK false
  end.

(** Filter 2:
<<
    if deps:
        if not all(dep in passing_tests for dep in deps):
            continue
>>
    [true] when the loop body goes on. *)
Definition deps_met (deps : json) (passing_tests : gset Z) : result bool :=
  if truthy deps then
    ds ← py_iter deps;
    all_in ds passing_tests
  else OK true.

(** [v == s] for a [str] literal [s]. *)
Definition eq_str (v : json) (s : string) : bool :=
  match v with
  | JStr s' => String.eqb s' s
  | _ => false
  end.

(** The output: a line is what one [print] call writes, as the literal
    text and the formatted values ([str(v)]) it is made of. *)
Inductive piece : Type :=
| Lit (s : string)
| Fmt (v : json).

Definition line : Type := list piece.

(** The module's variables when the script ends. *)
Record globals : Type := Globals {
  g_passing_tests : gset Z;
  g_candidates : list candidate
}.

(** A run: the lines printed, and either the final variables or the
    uncaught exception. *)
Record outcome : Type := Outcome {
  stdout : list line;
  exit : result globals
}.

(** [list.sort(key=...)]: a stable sort that compares keys with [<]
    only.  An element goes before the first one whose key is not
    smaller than its own. *)
Section list_sort.
Context {A K : Type} (key : A -> K) (lt : K -> K -> bool).

Fixpoint insert_sorted (x : A) (l : list A) : list A :=
  match l with
  | [] => [x]
  | y :: l' =>
      if lt (key y) (key x) then y :: insert_sorted x l' else x :: y :: l'
  end.

Definition list_sort (l : list A) : list A := foldr insert_sorted [] l.
End list_sort.

(** [(a1, b1) < (a2, b2)] on tuples of a [bool] and an [int]. *)
Definition key_lt (k1 k2 : bool * Z) : bool :=
  if Bool.eqb k1.1 k2.1 then (k1.2 <? k2.2)%Z else negb k1.1 && k2.1.

(** [lambda x: (x['complexity'] == 'medium', x['test_num'])] *)
Definition sort_key (x : candidate) : bool * Z :=
  (eq_str (complexity x) "medium", test_num x).

(** The five [print] calls for one candidate. *)
Definition block (i : Z) (cand : candidate) : list line :=
  [ [Fmt (JInt i); Lit ". TEST "; Fmt (JInt (test_num cand)); Lit ": ";
     Fmt (description cand)];
    [Lit "   Complexity: "; Fmt (complexity cand)];
    [Lit "   Category: "; Fmt (category cand)];
    [Lit "   Dependencies: ";
     Fmt (if truthy (dependencies cand) then dependencies cand
          else JStr "None")];
    [] ].

(** [for i, cand in enumerate(cands, i): ...] *)
Fixpoint report_loop (i : Z) (cands : list candidate) : list line :=
  match cands with
  | [] => []
  | cand :: rest => block i cand ++ report_loop (i + 1) rest
  end.

(** ** Printing *)

(** Whether a [str] holds a lone surrogate, the one code point the
    UTF-8 encoder of the standard output refuses. *)
Fixpoint has_surrogate (s : string) : bool :=
  match s with
  | EmptyString => false
  | String a s' =>
      match s' with
      | EmptyString => false
      | String b _ =>
          (N.eqb (N_of_ascii a) 237
           && (160 <=? N_of_ascii b)%N && (N_of_ascii b <=? 191)%N)
          || has_surrogate s'
      end
  end.

(** Whether the text of a piece can be written.  [str(v)] of a [str] is
    the string itself; of any other value it is its [repr], which is
    ASCII for numbers, [bool] and [None] and which escapes a surrogate
    inside a [list] or a [dict]. *)
Definition piece_printable (p : piece) : bool :=
  match p with
  | Lit s | Fmt (JStr s) => negb (has_surrogate s)
  | Fmt _ => true
  end.

Definition line_printable (l : line) : bool := forallb piece_printable l.

(** A sequence of [print] calls: the lines written, and the exception
    of the first call whose text cannot be encoded, which writes
    nothing and ends the script. *)
Fixpoint print_lines (ls : list line) : list line * result unit :=
  match ls with
  | [] => ([], OK ())
  | l :: rest =>
      if line_printable l then
        let '(out, r) := print_lines rest in (l :: out, r)
      else ([], Raise UnicodeEncodeError)
  end.

Section Script.
(** Two Python built-ins stay parameters: [str.lower], which follows
    the Unicode case tables, and the parser [json.load], which gives
    no value for a text that is not JSON. *)
Variable lower : string -> string.
Variable json_load : string -> option json.

(** [v.lower()]: only a [str] has the method. *)
Definition str_lower (v : json) : result string :=
  match v with
  | JStr s => OK (lower s)
  | _ => Raise AttributeError
  end.

(** The body of the second loop for the feature numbered [test_num]:
    [None] where the body reaches [continue], the new candidate where
    it reaches [candidates.append]. *)
Definition eligible (passing_tests : gset Z) (test_num : Z) (feature : json)
  : result (option candidate) :=
  p ← get feature "passes" (JBool true);
  if truthy p then OK None else
  d ← get feature "description" (JStr "");
  description ← str_lower d;
  if str_in "database" description || str_in "postgresql" description
  then OK None else
  c ← get feature "complexity" JNull;
  if negb (in_strs c ["simple"; "medium"]) then OK None else
  deps ← get feature "dependencies" (JArr []);
  met ← deps_met deps passing_tests;
  if negb met then OK None else
  let description_lower := description in
  if negb (existsb (λ keyword, str_in keyword description_lower)
             frontend_keywords)
  then OK None else
  d' ← get feature "description" (JStr "");
  c' ← get feature "complexity" (JStr "");
  cat ← get feature "category" (JStr "");
  OK (Some {| test_num := test_num; description := d'; complexity := c';
              dependencies := deps; category := cat |}).

(** The second loop, from index [i] on, appending to [candidates]. *)
Fixpoint candidates_loop (passing_tests : gset Z) (i : Z)
    (features : list json) (candidates : list candidate)
  : result (list candidate) :=
  match features with
  | [] => OK candidates
  | feature :: rest =>
      r ← eligible passing_tests (i + 1) feature;
      candidates_loop passing_tests (i + 1) rest
        (match r with
         | Some cand => candidates ++ [cand]
         | None => candidates
         end)
  end.

Definition candidates (passing_tests : gset Z) (features : json)
  : result (list candidate) :=
  fs ← py_iter features;
  candidates_loop passing_tests 0 fs [].

(** The lines printed between the two loops. *)
Definition passing_report (passing_tests : gset Z) : list line :=
  [ [Lit "=== PASSING TESTS ==="];
    [Fmt (JArr (JInt <$> merge_sort Z.le (elements passing_tests)))];
    [] ].

Definition eligible_header : list line :=
  [ [Lit "=== ELIGIBLE FEATURES (passes=false, simple/medium, no DB, dependencies met) ==="];
    [] ].

(** The script from the line after [json.load] to its end. *)
Definition script (features : json) : outcome :=
  match passing_tests features with
  | Raise e => {| stdout := []; exit := Raise e |}
  | OK passing =>
      match print_lines (passing_report passing) with
      | (out, Raise e) => {| stdout := out; exit := Raise e |}
      | (out, OK _) =>
          match candidates passing features with
          | Raise e => {| stdout := out; exit := Raise e |}
          | OK cands =>
              let sorted := list_sort sort_key key_lt cands in
              let '(out', r) :=
                print_lines (eligible_header
                             ++ report_loop 1 (take 10 sorted)) in
              {| stdout := out ++ out';
                 exit := r ≫= λ _, OK {| g_passing_tests := passing;
                                         g_candidates := sorted |} |}
          end
      end
  end.

(** The whole script; [file] is the text of [feature_list.json], if
    the file can be opened. *)
Definition main (file : option string) : outcome :=
  match file with
  | None => {| stdout := []; exit := Raise FileNotFoundError |}
  | Some text =>
      match json_load text with
      | None => {| stdout := []; exit := Raise JSONDecodeError |}
      | Some features => script features
      end
  end.
End Script.

(** * Vocabulary of the statements *)

(** [sub] occurs in [s]. *)
Definition substring_of (sub s : string) : Prop :=
  exists pre post, s = pre +:+ sub +:+ post.

(** What [feature.get('passes', dflt)] yields on a [dict]. *)
Definition passes_or (dflt : bool) (m : gmap string json) : json :=
  default (JBool dflt) (m !! "passes").

(** A record as the data model types its [passes] field: a [dict] whose
    [passes], when there is one, is a [bool]. *)
Definition passes_typed (feature : json) : bool :=
  match feature with
  | JObj m =>
      match m !! "passes" with
      | None | Some (JBool _) => true
      | Some _ => false
      end
  | _ => false
  end.

(** A record as the data model types all its fields: [passes] a
    boolean, [description], [complexity] and [category] strings,
    [dependencies] a list of integers, each of them possibly absent. *)
Definition is_bool (v : json) : bool :=
  match v with JBool _ => true | _ => false end.

Definition is_str (v : json) : bool :=
  match v with JStr _ => true | _ => false end.

Definition is_int (v : json) : bool :=
  match v with JInt _ => true | _ => false end.

Definition is_int_list (v : json) : bool :=
  match v with JArr l => forallb is_int l | _ => false end.

Definition absent_or (is_ty : json -> bool) (v : option json) : bool :=
  match v with None => true | Some v => is_ty v end.

Definition well_typed (feature : json) : bool :=
  match feature with
  | JObj m =>
      absent_or is_bool (m !! "passes")
      && absent_or is_str (m !! "description")
      && absent_or is_str (m !! "complexity")
      && absent_or is_int_list (m !! "dependencies")
      && absent_or is_str (m !! "category")
  | _ => false
  end.

(** A list in the order of a key: no element has a key smaller than
    the key of an element before it. *)
Definition sorted_by {A K} (key : A -> K) (lt : K -> K -> bool)
  : list A -> Prop :=
  StronglySorted (λ x y, lt (key y) (key x) = false).

(** The first line of a candidate block. *)
Definition is_block_head (l : line) : bool :=
  match l with
  | [Fmt (JInt _); Lit ". TEST "; Fmt (JInt _); Lit ": "; Fmt _] => true
  | _ => false
  end.

(** The number of candidate blocks in an output. *)
Definition count_blocks (out : list line) : nat :=
  length (filter (λ l, is_block_head l = true) out).

(** A [dict]. *)
Definition is_dict (v : json) : bool :=
  match v with JObj _ => true | _ => false end.

(** A [list]. *)
Definition is_list (v : json) : bool :=
  match v with JArr _ => true | _ => false end.

(** The two tiers of the ranking. *)
Definition is_simple (c : candidate) : bool := eq_str (complexity c) "simple".
Definition is_medium (c : candidate) : bool := eq_str (complexity c) "medium".


(** The keys the script reads. *)
Definition known_keys : list string :=
  ["passes"; "description"; "complexity"; "dependencies"; "category"].

(** * Inputs for the examples *)

(** [str.lower] on ASCII text: the letters [A]-[Z] go to [a]-[z]. *)
Definition lower_byte (a : ascii) : ascii :=
  let n := N_of_ascii a in
  if (65 <=? n)%N && (n <=? 90)%N then ascii_of_N (n + 32) else a.

Fixpoint lower_ascii (s : string) : string :=
  match s with
  | EmptyString => EmptyString
  | String a s' => String (lower_byte a) (lower_ascii s')
  end.

(** [json.load] on the few texts the examples read. *)
Definition json_load_atom (text : string) : option json :=
  if String.eqb text "[]" then Some (JArr [])
  else if String.eqb text "{}" then Some (JObj ∅)
  else if String.eqb text "null" then Some JNull
  else if String.eqb text "true" then Some (JBool true)
  else if String.eqb text "false" then Some (JBool false)
  else None.

(** A [dict] from its items. *)
Definition obj (items : list (string * json)) : json :=
  JObj (list_to_map items).

(** Test 1 passes; test 2 is a simple UI feature that depends on it. *)
Definition dark_mode : json :=
  obj [("passes", JBool false);
       ("description", JStr "Add dark mode toggle button");
       ("complexity", JStr "simple");
       ("dependencies", JArr [JInt 1]);
       ("category", JStr "UI")].

Definition two_features : list json := [obj [("passes", JBool true)]; dark_mode].

(** A feature that fails, of the given complexity, with no dependency. *)
Definition settings_page (cx : string) : json :=
  obj [("passes", JBool false);
       ("description", JStr "Settings Page");
       ("complexity", JStr cx)].

(** Six medium features, then nine simple ones. *)
Definition fifteen_features : list json :=
  replicate 6 (settings_page "medium") ++ replicate 9 (settings_page "simple").

(** The variables at the end of the run on [two_features]. *)
Definition dark_mode_candidate : candidate :=
  {| test_num := 2;
     description := JStr "Add dark mode toggle button";
     complexity := JStr "simple";
     dependencies := JArr [JInt 1];
     category := JStr "UI" |}.

Definition two_features_final : globals :=
  {| g_passing_tests := {[ 1 ]}; g_candidates := [dark_mode_candidate] |}.

(** The candidates of [fifteen_features], as appended and as sorted. *)
Definition settings_candidate (cx : string) (n : Z) : candidate :=
  {| test_num := n;
     description := JStr "Settings Page";
     complexity := JStr cx;
     dependencies := JArr [];
     category := JStr "" |}.

Definition fifteen_candidates : list candidate :=
  (settings_candidate "medium" <$> [1; 2; 3; 4; 5; 6])
  ++ (settings_candidate "simple" <$> [7; 8; 9; 10; 11; 12; 13; 14; 15]).

Definition fifteen_final : globals :=
  {| g_passing_tests := ∅;
     g_candidates :=
       (settings_candidate "simple" <$> [7; 8; 9; 10; 11; 12; 13; 14; 15])
       ++ (settings_candidate "medium" <$> [1; 2; 3; 4; 5; 6]) |}.

(** The lone surrogate U+D800, as [json.load] yields it from the
    escape [\ud800]. *)
Definition lone_surrogate : string :=
  String (ascii_of_N 237) (String (ascii_of_N 160)
    (String (ascii_of_N 128) EmptyString)).

(** One failing record, typed as in the data model, whose description
    ends in a lone surrogate. *)
Definition surrogate_description : list json :=
  [obj [("passes", JBool false);
        ("description", JStr ("Settings page " +:+ lone_surrogate));
        ("complexity", JStr "simple");
        ("dependencies", JArr []);
        ("category", JStr "UI")]].


(** Two failing records; the category of the second is a lone
    surrogate. *)
Definition surrogate_category : list json :=
  [settings_page "simple";
   obj [("passes", JBool false);
        ("description", JStr "Settings page");
        ("complexity", JStr "simple");
        ("category", JStr lone_surrogate)]].

(** One failing record with the given description, complexity and
    dependencies, after [n] failing records without a description. *)
Definition lone_feature (n : nat) (text cx : string) (deps : list json)
  : list json :=
  replicate n (obj [("passes", JBool false)])
  ++ [obj [("passes", JBool false); ("description", JStr text);
           ("complexity", JStr cx); ("dependencies", JArr deps)]].

(** * Properties *)

(** ** The error monad *)

Lemma bind_OK {A B} (f : A -> result B) (r : result A) (b : B) :
  r ≫= f = OK b <-> exists a, r = OK a /\ f a = OK b.
Proof.
  unfold mbind, result_mbind. destruct r as [a|e]; simpl; split.
  - eauto.
  - by intros (a' & [= ->] & ?).
  - discriminate.
  - by intros (? & ? & ?).
Qed.

Lemma get_OK feature key dflt v :
  get feature key dflt = OK v <->
  exists m, feature = JObj m /\ v = default dflt (m !! key).
Proof.
  destruct feature; simpl; split;
    try discriminate; try (by intros (? & [=] & ?)).
  - intros [= <-]. eauto.
  - by intros (? & [= <-] & ->).
Qed.

(** ** Substrings *)

Lemma prefix_spec sub s :
  String.prefix sub s = true <-> exists post, s = sub +:+ post.
Proof.
  revert s. induction sub as [|a sub IH]; intros [|b s]; simpl.
  - split; [by exists EmptyString | done].
  - split; [by exists (String b s) | done].
  - split; [discriminate | by intros [? ?]].
  - destruct (Ascii.ascii_dec a b) as [->|Hne].
    + rewrite IH. split; intros [post H]; exists post.
      * by rewrite H.
      * by injection H.
    + split; [discriminate | by intros [? [=]]].
Qed.

Lemma str_in_nil sub : str_in sub EmptyString = String.prefix sub EmptyString.
Proof. unfold str_in. apply orb_false_r. Qed.

Lemma str_in_cons sub a s :
  str_in sub (String a s) = String.prefix sub (String a s) || str_in sub s.
Proof. reflexivity. Qed.

Lemma str_in_spec sub s : str_in sub s = true <-> substring_of sub s.
Proof.
  unfold substring_of. induction s as [|a s IH].
  - rewrite str_in_nil, prefix_spec. split.
    + intros [post H]. by exists EmptyString, post.
    + intros ([|??] & post & H); [eauto | discriminate].
  - rewrite str_in_cons, orb_true_iff, prefix_spec, IH. split.
    + intros [[post H]|(pre & post & ->)].
      * by exists EmptyString, post.
      * by exists (String a pre), post.
    + intros ([|b pre] & post & H); simpl in H.
      * left; eauto.
      * right. injection H as -> ->. eauto.
Qed.

Lemma str_in_false sub s : str_in sub s = false <-> ~ substring_of sub s.
Proof. rewrite <- str_in_spec. by destruct (str_in sub s). Qed.

(** [any(keyword in text for keyword in frontend_keywords)] *)
Lemma frontend_match_spec text :
  existsb (λ keyword, str_in keyword text) frontend_keywords = true <->
  exists keyword, keyword ∈ frontend_keywords /\ substring_of keyword text.
Proof.
  rewrite existsb_exists. apply exist_proper; intros keyword.
  by rewrite list_elem_of_In, str_in_spec.
Qed.

(** ** The passing tests *)

Lemma passing_loop_cons i feature rest P0 :
  passing_loop i (feature :: rest) P0 =
  get feature "passes" (JBool false) ≫= λ p,
    passing_loop (i + 1) rest (if truthy p then P0 ∪ {[ i + 1 ]} else P0).
Proof. reflexivity. Qed.

Lemma passing_loop_spec fs : forall i P0 P,
  passing_loop i fs P0 = OK P ->
  forall n, n ∈ P <->
    n ∈ P0 \/
    exists (k : nat) m, fs !! k = Some (JObj m) /\
      truthy (passes_or false m) = true /\ n = i + Z.of_nat k + 1.
Proof.
  induction fs as [|f rest IH]; intros i P0 P.
  - intros [= ->] n. split; [by left|].
    intros [?|(k & m & Hk & _)]; [done | by rewrite lookup_nil in Hk].
  - rewrite passing_loop_cons, bind_OK.
    intros (p & (m & -> & ->)%get_OK & Hrest) n.
    rewrite (IH _ _ _ Hrest n). fold (passes_or false m). split.
    + intros [Hn|(k & m' & Hk & Ht & ->)].
      * destruct (truthy (passes_or false m)) eqn:Ht; [|by left].
        apply elem_of_union in Hn as [?| ->%elem_of_singleton]; [by left|].
        right. exists 0%nat, m. split_and!; [done..|lia].
      * right. exists (S k), m'. split_and!; [done..|lia].
    + intros [Hn|([|k] & m' & Hk & Ht & ->)].
      * left. destruct (truthy _); set_solver.
      * injection Hk as <-. left. rewrite Ht. set_solver by lia.
      * right. exists k, m'. split_and!; [done..|lia].
Qed.

Lemma passing_loop_total fs : forall i P0,
  Forall (λ f, exists m, f = JObj m) fs ->
  exists P, passing_loop i fs P0 = OK P.
Proof.
  induction fs as [|f rest IH]; intros i P0 Hobj; [by eexists|].
  apply Forall_cons in Hobj as [[m ->] Hrest].
  rewrite passing_loop_cons. simpl. by apply IH.
Qed.

Lemma passing_loop_objects fs : forall i P0 P,
  passing_loop i fs P0 = OK P -> Forall (λ f, exists m, f = JObj m) fs.
Proof.
  induction fs as [|f rest IH]; intros i P0 P; [by constructor|].
  rewrite passing_loop_cons, bind_OK.
  intros (p & (m & -> & ->)%get_OK & Hrest). constructor; eauto.
Qed.

(** The passing set of a list of records, whatever the values of the
    [passes] fields: the numbers of the records whose [passes] is
    truthy. *)
Lemma passing_tests_truthy fs P :
  passing_tests (JArr fs) = OK P ->
  forall n, n ∈ P <->
    exists (k : nat) m, fs !! k = Some (JObj m) /\
      truthy (passes_or false m) = true /\ n = Z.of_nat k + 1.
Proof.
  intros H n. unfold passing_tests in H. simpl in H.
  rewrite (passing_loop_spec _ _ _ _ H n). split.
  - intros [?|(k & m & ? & ? & ->)]; [set_solver|]. exists k, m. by rewrite Z.add_0_l.
  - intros (k & m & ? & ? & ->). right. exists k, m. by rewrite Z.add_0_l.
Qed.

Lemma well_typed_passes feature :
  well_typed feature = true -> passes_typed feature = true.
Proof.
  destruct feature as [| | | | | |m]; try done. simpl.
  rewrite !andb_true_iff. intros [[[[Hp _] _] _] _].
  by destruct (m !! "passes") as [[]|].
Qed.

Lemma passes_typed_truthy m dflt :
  passes_typed (JObj m) = true ->
  truthy (passes_or dflt m) = true <->
  m !! "passes" = Some (JBool true) \/ (m !! "passes" = None /\ dflt = true).
Proof.
  unfold passes_typed, passes_or.
  destruct (m !! "passes") as [[| [] | | | | |]|]; simpl; try discriminate;
    intros _; split; try tauto; try naive_solver.
Qed.

(** ** The eligibility filter *)

Section Eligibility.
Variable lower : string -> string.

(** What the loop body has checked when it appends a candidate. *)
Lemma eligible_Some P n feature c :
  eligible lower P n feature = OK (Some c) ->
  exists m s,
    feature = JObj m /\
    truthy (passes_or true m) = false /\
    default (JStr "") (m !! "description") = JStr s /\
    str_in "database" (lower s) = false /\
    str_in "postgresql" (lower s) = false /\
    in_strs (default JNull (m !! "complexity")) ["simple"; "medium"] = true /\
    deps_met (default (JArr []) (m !! "dependencies")) P = OK true /\
    existsb (λ keyword, str_in keyword (lower s)) frontend_keywords = true /\
    c = {| test_num := n;
           description := default (JStr "") (m !! "description");
           complexity := default (JStr "") (m !! "complexity");
           dependencies := default (JArr []) (m !! "dependencies");
           category := default (JStr "") (m !! "category") |}.
Proof.
  unfold eligible.
  intros (p & (m & -> & ->)%get_OK & H)%bind_OK.
  fold (passes_or true m) in H.
  destruct (truthy (passes_or true m)) eqn:Hp; [discriminate|].
  apply bind_OK in H as (d & [= <-] & H).
  apply bind_OK in H as (s' & Hs & H).
  destruct (default (JStr "") (m !! "description")) as [| | | |s| |] eqn:Hd;
    try discriminate.
  injection Hs as <-.
  destruct (str_in "database" (lower s)) eqn:Hdb; [discriminate|].
  destruct (str_in "postgresql" (lower s)) eqn:Hpg; [discriminate|].
  apply bind_OK in H as (cx & [= <-] & H).
  destruct (in_strs _ _) eqn:Hcx; [|discriminate].
  apply bind_OK in H as (deps & [= <-] & H).
  apply bind_OK in H as ([] & Hmet & H); [|discriminate].
  destruct (existsb _ frontend_keywords) eqn:Hkw; [|discriminate].
  injection H as <-. exists m, s. by rewrite Hd.
Qed.

(** The same checks are all the loop body asks for. *)
Lemma eligible_complete P n m s :
  truthy (passes_or true m) = false ->
  default (JStr "") (m !! "description") = JStr s ->
  str_in "database" (lower s) = false ->
  str_in "postgresql" (lower s) = false ->
  in_strs (default JNull (m !! "complexity")) ["simple"; "medium"] = true ->
  deps_met (default (JArr []) (m !! "dependencies")) P = OK true ->
  existsb (λ keyword, str_in keyword (lower s)) frontend_keywords = true ->
  eligible lower P n (JObj m) =
    OK (Some {| test_num := n;
                description := default (JStr "") (m !! "description");
                complexity := default (JStr "") (m !! "complexity");
                dependencies := default (JArr []) (m !! "dependencies");
                category := default (JStr "") (m !! "category") |}).
Proof.
  intros Hp Hd Hdb Hpg Hcx Hmet Hkw.
  unfold eligible, get, mbind, result_mbind, result_bind.
  fold (passes_or true m). rewrite Hp, Hd. simpl str_lower. cbv beta iota.
  by rewrite Hdb, Hpg, Hcx, Hmet, Hkw.
Qed.

Lemma eligible_complexity P n m c :
  eligible lower P n (JObj m) = OK (Some c) ->
  m !! "complexity" = Some (JStr "simple") \/
  m !! "complexity" = Some (JStr "medium").
Proof.
  intros (m' & s & [= <-] & _ & _ & _ & _ & Hcx & _)%eligible_Some.
  destruct (m !! "complexity") as [[| | | |cx| |]|]; try discriminate.
  simpl in Hcx. rewrite orb_false_r, orb_true_iff, !String.eqb_eq in Hcx.
  naive_solver.
Qed.

Lemma candidates_loop_cons P i feature rest acc :
  candidates_loop lower P i (feature :: rest) acc =
  eligible lower P (i + 1) feature ≫= λ r,
    candidates_loop lower P (i + 1) rest
      (match r with Some cand => acc ++ [cand] | None => acc end).
Proof. reflexivity. Qed.

(** The second loop appends, in the order of the input, the candidates
    of the records it runs through; their numbers go up. *)
Lemma candidates_loop_spec P fs : forall i acc cs,
  candidates_loop lower P i fs acc = OK cs ->
  exists new,
    cs = acc ++ new /\
    (forall c, c ∈ new <->
       exists (k : nat) f, fs !! k = Some f /\
         eligible lower P (i + Z.of_nat k + 1) f = OK (Some c)) /\
    StronglySorted Z.lt (test_num <$> new) /\
    Forall (λ c, i < test_num c) new.
Proof.
  induction fs as [|f rest IH]; intros i acc cs.
  - intros [= <-]. exists []. rewrite app_nil_r. split_and!; try by constructor.
    intros c. split; [by intros ?%elem_of_nil|].
    intros (k & f & Hk & _). by rewrite lookup_nil in Hk.
  - rewrite candidates_loop_cons, bind_OK. intros (r & Hr & Hrest).
    apply IH in Hrest as (new & -> & Hnew & Hsorted & Hlt).
    assert (Hshift : forall c, c ∈ new <->
              exists (k : nat) f', (f :: rest) !! S k = Some f' /\
                eligible lower P (i + Z.of_nat (S k) + 1) f' = OK (Some c)).
    { intros c. rewrite Hnew. apply exist_proper; intros k.
      apply exist_proper; intros f'. simpl.
      by replace (i + 1 + Z.of_nat k + 1) with (i + Z.of_nat (S k) + 1) by lia. }
    assert (Hlt' : Forall (λ c, i < test_num c) new).
    { eapply Forall_impl; [exact Hlt|]. simpl. lia. }
    destruct r as [c0|].
    + exists (c0 :: new). rewrite <- app_assoc. split_and!; [done|..].
      * intros c. rewrite elem_of_cons, Hshift. split.
        -- intros [->|(k & f' & ? & ?)]; [|by exists (S k), f'].
           exists 0%nat, f. by rewrite Z.add_0_r.
        -- intros ([|k] & f' & Hk & He); [|right; by exists k, f'].
           left. injection Hk as <-. rewrite Z.add_0_r in He. congruence.
      * apply eligible_Some in Hr as (? & ? & _ & _ & _ & _ & _ & _ & _ & _ & ->).
        rewrite fmap_cons. constructor; [done|].
        apply Forall_fmap. eapply Forall_impl; [exact Hlt|]. done.
      * constructor; [|done].
        apply eligible_Some in Hr as (? & ? & _ & _ & _ & _ & _ & _ & _ & _ & ->).
        simpl. lia.
    + exists new. split_and!; [done| |done..].
      intros c. rewrite Hshift. split.
      * intros (k & f' & ? & ?). by exists (S k), f'.
      * intros ([|k] & f' & Hk & He); [|by exists k, f'].
        injection Hk as <-. rewrite Z.add_0_r in He. congruence.
Qed.

(** On records typed as in the data model no exception is raised. *)
Lemma all_in_ints deps P :
  forallb is_int deps = true -> exists b, all_in deps P = OK b.
Proof.
  induction deps as [|dep rest IH]; simpl; [by eexists|].
  intros [Hdep Hrest]%andb_true_iff. destruct dep; try discriminate.
  simpl. destruct (bool_decide _); eauto.
Qed.

Lemma deps_met_total deps P :
  absent_or is_int_list deps = true ->
  exists b, deps_met (default (JArr []) deps) P = OK b.
Proof.
  destruct deps as [[| | | | |l|]|]; try discriminate; [|by eexists].
  simpl. intros Hl. unfold deps_met. destruct l; [by eexists|].
  by apply all_in_ints.
Qed.

Lemma eligible_total P n feature :
  well_typed feature = true -> exists r, eligible lower P n feature = OK r.
Proof.
  destruct feature as [| | | | | |m]; try discriminate. simpl.
  rewrite !andb_true_iff. intros [[[[Hp Hd] Hc] Hdeps] Hcat].
  destruct (deps_met_total (m !! "dependencies") P Hdeps) as [b Hb].
  unfold eligible, get, mbind, result_mbind, result_bind.
  destruct (truthy _); [by eexists|].
  destruct (m !! "description") as [[]|]; try discriminate; simpl;
    rewrite Hb; repeat case_match; by eexists.
Qed.

Lemma candidates_loop_total P fs : forall i acc,
  forallb well_typed fs = true ->
  exists cs, candidates_loop lower P i fs acc = OK cs.
Proof.
  induction fs as [|f rest IH]; intros i acc; [by eexists|].
  simpl forallb. intros [Hf Hrest]%andb_true_iff.
  rewrite candidates_loop_cons.
  destruct (eligible_total P (i + 1) f Hf) as [r ->]. simpl. by apply IH.
Qed.
End Eligibility.

(** ** Sorting *)

Section list_sort_props.
Context {A K : Type} (key : A -> K) (lt : K -> K -> bool).
Hypothesis lt_asym : forall a b, lt a b = true -> lt b a = false.
Hypothesis lt_negtrans :
  forall a b c, lt b a = false -> lt c b = false -> lt c a = false.

Lemma insert_sorted_perm x l : insert_sorted key lt x l ≡ₚ x :: l.
Proof.
  induction l as [|y l IH]; simpl; [done|].
  destruct (lt (key y) (key x)); [|done].
  rewrite IH. apply perm_swap.
Qed.

Lemma list_sort_perm l : list_sort key lt l ≡ₚ l.
Proof.
  induction l as [|x l IH]; simpl; [done|].
  by rewrite insert_sorted_perm, IH.
Qed.

Lemma insert_sorted_sorted x l :
  sorted_by key lt l -> sorted_by key lt (insert_sorted key lt x l).
Proof.
  unfold sorted_by. induction 1 as [|y l Hl IH Hy]; simpl.
  - repeat constructor.
  - destruct (lt (key y) (key x)) eqn:Hyx.
    + constructor; [done|].
      rewrite insert_sorted_perm. constructor; [|done]. by apply lt_asym.
    + constructor; [by constructor|].
      constructor; [done|].
      eapply Forall_impl; [exact Hy|]. simpl. intros z Hz.
      by apply (lt_negtrans _ (key y)).
Qed.

Lemma list_sort_sorted l : sorted_by key lt (list_sort key lt l).
Proof.
  induction l as [|x l IH]; simpl; [constructor|].
  by apply insert_sorted_sorted.
Qed.

(** In a sorted list the key of a later element is not smaller. *)
Lemma sorted_by_lookup l (i j : nat) x y :
  sorted_by key lt l -> l !! i = Some x -> l !! j = Some y ->
  (i < j)%nat -> lt (key y) (key x) = false.
Proof.
  unfold sorted_by. intros Hl. revert i j.
  induction Hl as [|z l Hl IH Hz]; intros i j Hi Hj Hij.
  - by rewrite lookup_nil in Hi.
  - destruct j as [|j]; [lia|]. simpl in Hj. destruct i as [|i].
    + injection Hi as <-.
      rewrite Forall_forall in Hz. apply Hz. by eapply list_elem_of_lookup_2.
    + simpl in Hi. apply (IH i j); [done..|lia].
Qed.
End list_sort_props.

Lemma key_lt_asym k1 k2 : key_lt k1 k2 = true -> key_lt k2 k1 = false.
Proof.
  destruct k1 as [[] z1], k2 as [[] z2]; unfold key_lt; simpl; lia.
Qed.

Lemma key_lt_negtrans k1 k2 k3 :
  key_lt k2 k1 = false -> key_lt k3 k2 = false -> key_lt k3 k1 = false.
Proof.
  destruct k1 as [[] z1], k2 as [[] z2], k3 as [[] z3];
    unfold key_lt; simpl; lia.
Qed.

(** ** Printing *)

Lemma print_lines_cons l rest :
  print_lines (l :: rest) =
  if line_printable l
  then (l :: (print_lines rest).1, (print_lines rest).2)
  else ([], Raise UnicodeEncodeError).
Proof. simpl. destruct (line_printable l); [|done]. by destruct (print_lines rest). Qed.

(** Lines that can all be encoded are all written. *)
Lemma print_lines_all ls :
  forallb line_printable ls = true -> print_lines ls = (ls, OK ()).
Proof.
  induction ls as [|l ls IH]; [done|]. simpl forallb.
  intros [Hl Hls]%andb_true_iff. by rewrite print_lines_cons, Hl, IH.
Qed.

(** The calls end without an exception only when every line is
    written. *)
Lemma print_lines_OK ls out u :
  print_lines ls = (out, OK u) ->
  out = ls /\ forallb line_printable ls = true.
Proof.
  revert out. induction ls as [|l ls IH]; intros out; [by intros [= <-]|].
  rewrite print_lines_cons. simpl forallb.
  destruct (line_printable l); [|discriminate].
  destruct (print_lines ls) as [out' r] eqn:Hls. simpl.
  intros [= <- ->]. by destruct (IH out' eq_refl) as [-> ->].
Qed.



Lemma print_lines_app ls1 ls2 :
  forallb line_printable ls1 = true ->
  print_lines (ls1 ++ ls2) = (ls1 ++ (print_lines ls2).1, (print_lines ls2).2).
Proof.
  induction ls1 as [|l ls1 IH]; simpl forallb.
  - intros _. change ([] ++ ls2) with ls2. by destruct (print_lines ls2).
  - intros [Hl Hls]%andb_true_iff.
    change ((l :: ls1) ++ ls2) with (l :: (ls1 ++ ls2)).
    by rewrite print_lines_cons, Hl, (IH Hls).
Qed.

(** The headers and the list of the passing numbers are ASCII. *)
Lemma passing_report_printable P :
  forallb line_printable (passing_report P) = true.
Proof. reflexivity. Qed.

Lemma eligible_header_printable :
  forallb line_printable eligible_header = true.
Proof. reflexivity. Qed.

(** ** The script *)

Section Run.
Variable lower : string -> string.

(** The script with the two reports that cannot fail written out. *)
Lemma script_eq features :
  script lower features =
  match passing_tests features with
  | Raise e => {| stdout := []; exit := Raise e |}
  | OK P =>
      match candidates lower P features with
      | Raise e => {| stdout := passing_report P; exit := Raise e |}
      | OK cs =>
          let sorted := list_sort sort_key key_lt cs in
          let printed := print_lines (report_loop 1 (take 10 sorted)) in
          {| stdout := passing_report P ++ eligible_header ++ printed.1;
             exit := printed.2 ≫= λ _, OK {| g_passing_tests := P;
                                             g_candidates := sorted |} |}
      end
  end.
Proof.
  unfold script. destruct (passing_tests features) as [P|e]; [|done].
  rewrite (print_lines_all _ (passing_report_printable P)).
  destruct (candidates lower P features) as [cs|e]; [|done].
  by rewrite (print_lines_app _ _ eligible_header_printable).
Qed.

(** A run that ends without an exception went through both loops, the
    sort and the report. *)
Lemma script_OK features g :
  exit (script lower features) = OK g ->
  exists cs,
    passing_tests features = OK (g_passing_tests g) /\
    candidates lower (g_passing_tests g) features = OK cs /\
    g_candidates g = list_sort sort_key key_lt cs /\
    stdout (script lower features) =
      passing_report (g_passing_tests g) ++ eligible_header
      ++ report_loop 1 (take 10 (g_candidates g)).
Proof.
  rewrite script_eq.
  destruct (passing_tests features) as [P|e]; [|discriminate].
  destruct (candidates lower P features) as [cs|e] eqn:Hcs; [|discriminate].
  cbv zeta.
  destruct (print_lines _) as [out [u|e]] eqn:Hout; [|discriminate].
  apply print_lines_OK in Hout as [-> _].
  simpl. intros [= <-]. by exists cs.
Qed.


(** Every candidate of a finished run was appended by the loop body
    at the record its number names. *)
Lemma candidate_origin fs g c :
  exit (script lower (JArr fs)) = OK g ->
  c ∈ g_candidates g ->
  exists (k : nat) m,
    fs !! k = Some (JObj m) /\
    test_num c = Z.of_nat k + 1 /\
    eligible lower (g_passing_tests g) (Z.of_nat k + 1) (JObj m) = OK (Some c).
Proof.
  intros (cs & _ & Hcs & -> & _)%script_OK Hc.
  rewrite list_sort_perm in Hc.
  unfold candidates in Hcs. simpl in Hcs.
  apply candidates_loop_spec in Hcs as (new & -> & Hnew & _).
  simpl in Hc. apply Hnew in Hc as (k & f & Hk & He).
  rewrite Z.add_0_l in He.
  pose proof He as (m & s & -> & _ & _ & _ & _ & _ & _ & _ & ->)%eligible_Some.
  by exists k, m.
Qed.

(** Conversely, a record the loop body lets through is among the
    candidates. *)
Lemma record_is_candidate fs g (k : nat) f c :
  exit (script lower (JArr fs)) = OK g ->
  fs !! k = Some f ->
  eligible lower (g_passing_tests g) (Z.of_nat k + 1) f = OK (Some c) ->
  c ∈ g_candidates g.
Proof.
  intros (cs & _ & Hcs & -> & _)%script_OK Hk He.
  rewrite list_sort_perm.
  unfold candidates in Hcs. simpl in Hcs.
  apply candidates_loop_spec in Hcs as (new & -> & Hnew & _).
  simpl. apply Hnew. exists k, f. by rewrite Z.add_0_l.
Qed.

(** Only a list at the top level gives candidates: the items of a
    [str] or of a [dict] are [str], which have no [get]. *)
Lemma candidates_of_strs P (l : list string) : forall i acc cs,
  candidates_loop lower P i (JStr <$> l) acc = OK cs -> l = [] /\ cs = acc.
Proof. destruct l; intros i acc cs; [by intros [= <-] | discriminate]. Qed.

Lemma candidates_from_list P features cs :
  candidates lower P features = OK cs ->
  cs <> [] -> exists fs, features = JArr fs.
Proof.
  unfold candidates. intros (l & Hl & Hcs)%bind_OK Hne.
  destruct features; try discriminate; [| by eexists |];
    injection Hl as <-; by apply candidates_of_strs in Hcs as [_ ->].
Qed.

(** The candidate numbered [k + 1], if there is one, comes from the
    record at position [k]. *)
Lemma candidate_of_record fs g c (k : nat) f :
  exit (script lower (JArr fs)) = OK g ->
  c ∈ g_candidates g ->
  fs !! k = Some f ->
  test_num c = Z.of_nat k + 1 ->
  eligible lower (g_passing_tests g) (Z.of_nat k + 1) f = OK (Some c).
Proof.
  intros Hrun Hc Hk Hn.
  destruct (candidate_origin _ _ _ Hrun Hc) as (k' & m & Hk' & Hn' & He).
  assert (k' = k) as -> by lia. congruence.
Qed.

Lemma candidate_complexity fs g c :
  exit (script lower (JArr fs)) = OK g ->
  c ∈ g_candidates g ->
  complexity c = JStr "simple" \/ complexity c = JStr "medium".
Proof.
  intros Hrun Hc.
  destruct (candidate_origin _ _ _ Hrun Hc) as (k & m & Hk & Hn & He).
  pose proof (eligible_complexity _ _ _ _ _ He) as Hcx.
  apply eligible_Some in He as (m' & s & [= <-] & _ & _ & _ & _ & _ & _ & _ & ->).
  simpl. destruct Hcx as [-> | ->]; auto.
Qed.

(** The numbers of the candidates of a finished run are distinct. *)
Lemma candidates_NoDup fs g :
  exit (script lower (JArr fs)) = OK g ->
  NoDup (test_num <$> g_candidates g).
Proof.
  intros (cs & _ & Hcs & -> & _)%script_OK.
  rewrite list_sort_perm.
  unfold candidates in Hcs. simpl in Hcs.
  apply candidates_loop_spec in Hcs as (new & -> & _ & Hsorted & _).
  simpl. clear -Hsorted.
  induction Hsorted as [|n l Hl IH Hn]; constructor; [|done].
  intros Hin. rewrite Forall_forall in Hn. specialize (Hn _ Hin). lia.
Qed.

(** On records typed as in the data model both loops end. *)
Lemma loops_finish fs :
  forallb well_typed fs = true ->
  exists P cs,
    passing_tests (JArr fs) = OK P /\ candidates lower P (JArr fs) = OK cs.
Proof.
  intros Hfs.
  assert (Hobj : Forall (λ f, exists m, f = JObj m) fs).
  { rewrite forallb_forall in Hfs. apply Forall_forall.
    intros f Hf%list_elem_of_In%Hfs. destruct f; try discriminate. eauto. }
  destruct (passing_loop_total fs 0 ∅ Hobj) as [P HP].
  destruct (candidates_loop_total lower P fs 0 [] Hfs) as [cs Hcs].
  by exists P, cs.
Qed.
End Run.

(** ** Dependencies *)

Lemma all_in_true deps P :
  all_in deps P = OK true -> Forall (λ dep, in_set dep P = OK true) deps.
Proof.
  induction deps as [|dep rest IH]; simpl; [by constructor|].
  intros ([] & Hdep & Hrest)%bind_OK; [|discriminate].
  constructor; auto.
Qed.

Lemma in_set_int z P : in_set (JInt z) P = OK true <-> z ∈ P.
Proof.
  simpl. split.
  - intros [= H]. by apply bool_decide_eq_true in H.
  - intros H. f_equal. by apply bool_decide_eq_true.
Qed.

Lemma deps_met_list deps P :
  deps_met (JArr deps) P = OK true ->
  Forall (λ dep, in_set dep P = OK true) deps.
Proof.
  unfold deps_met. destruct deps as [|dep rest]; [by constructor|].
  apply all_in_true.
Qed.

Lemma code_points_nil s : code_points s = [] -> s = EmptyString.
Proof.
  destruct s as [|a [|b s]]; [done|discriminate|].
  change (code_points (String a (String b s)))
    with (if is_continuation b then
            match code_points (String b s) with
            | c :: cs' => String a c :: cs'
            | [] => [String a EmptyString]
            end
          else String a EmptyString :: code_points (String b s)).
  by destruct (is_continuation b), (code_points (String b s)).
Qed.

Lemma all_in_strs (l : list string) P :
  l <> [] -> all_in (JStr <$> l) P = OK false.
Proof. by destruct l. Qed.

Lemma deps_met_shape deps P :
  deps_met deps P = OK true ->
  truthy deps = false \/ exists dep rest, deps = JArr (dep :: rest).
Proof.
  unfold deps_met. destruct (truthy deps) eqn:Ht; [|by left].
  intros (l & Hl & Hall)%bind_OK. right.
  destruct deps as [| | | |s|l'|m]; try discriminate; injection Hl as <-.
  - rewrite all_in_strs in Hall; [discriminate|].
    intros ->%code_points_nil. discriminate.
  - destruct l'; [discriminate|eauto].
  - rewrite all_in_strs in Hall; [discriminate|].
    intros Hnil%fmap_nil_inv%map_to_list_empty_iff. by subst.
Qed.

(** ** Blocks of the report *)





Lemma count_blocks_app out1 out2 :
  count_blocks (out1 ++ out2) = (count_blocks out1 + count_blocks out2)%nat.
Proof. unfold count_blocks. by rewrite filter_app, length_app. Qed.


Lemma count_blocks_passing_report P : count_blocks (passing_report P) = 0%nat.
Proof. done. Qed.

(** * Scenarios *)

(** Test 1 passes and test 2, which depends on it, is the one
    candidate. *)
Example scenario_dark_mode :
  script lower_ascii (JArr two_features) =
  {| stdout :=
       [ [Lit "=== PASSING TESTS ==="];
         [Fmt (JArr [JInt 1])];
         [];
         [Lit "=== ELIGIBLE FEATURES (passes=false, simple/medium, no DB, dependencies met) ==="];
         [];
         [Fmt (JInt 1); Lit ". TEST "; Fmt (JInt 2); Lit ": ";
          Fmt (JStr "Add dark mode toggle button")];
         [Lit "   Complexity: "; Fmt (JStr "simple")];
         [Lit "   Category: "; Fmt (JStr "UI")];
         [Lit "   Dependencies: "; Fmt (JArr [JInt 1])];
         [] ];
     exit := OK two_features_final |}.
Proof. reflexivity. Qed.

(** The database filter wins over a keyword match. *)
Example scenario_postgresql :
  candidates lower_ascii ∅
    (JArr (lone_feature 0 "PostgreSQL integration test UI" "simple" []))
  = OK [].
Proof. reflexivity. Qed.

Example scenario_complex :
  candidates lower_ascii ∅ (JArr (lone_feature 0 "Settings page" "complex" []))
  = OK [].
Proof. reflexivity. Qed.

(** A dependency on test 3, which fails. *)
Example scenario_unmet_dependency :
  exit (script lower_ascii
          (JArr (lone_feature 3 "Settings page" "simple" [JInt 3])))
  = OK {| g_passing_tests := ∅; g_candidates := [] |}.
Proof. reflexivity. Qed.

(** Nine simple and six medium candidates: the report shows the nine
    simple ones and the first medium one. *)
Example scenario_fifteen :
  exit (script lower_ascii (JArr fifteen_features)) = OK fifteen_final /\
  drop 5 (stdout (script lower_ascii (JArr fifteen_features)))
  = report_loop 1
      ((settings_candidate "simple" <$> [7; 8; 9; 10; 11; 12; 13; 14; 15])
       ++ [settings_candidate "medium" 1]).
Proof. split; reflexivity. Qed.

(** Matching ignores word boundaries: "fruit" holds "ui". *)
Example scenario_fruit :
  test_num <$> default []
    (match candidates lower_ascii ∅
             (JArr (lone_feature 0 "Fruit basket" "simple" [])) with
     | OK cs => Some cs
     | Raise _ => None
     end)
  = [1].
Proof. reflexivity. Qed.

(** Outside the data model Python's truth values decide: a [passes]
    that is a non-empty string counts as passing in the first loop, and
    a [passes] that is [null] lets the record through the first
    filter. *)
Example passes_string_counts :
  match passing_tests (JArr [obj [("passes", JStr "no")]]) with
  | OK P => elements P
  | Raise _ => []
  end = [1].
Proof. reflexivity. Qed.

Example passes_null_candidate :
  test_num <$> default []
    (match candidates lower_ascii ∅
             (JArr [obj [("passes", JNull); ("description", JStr "Login form");
                         ("complexity", JStr "medium")]]) with
     | OK cs => Some cs
     | Raise _ => None
     end)
  = [1].
Proof. reflexivity. Qed.

(** A lone surrogate in a description stops the run before the block
    of its candidate is printed; in a category, after the first two
    lines of the block. *)
Example scenario_surrogate_description :
  script lower_ascii (JArr surrogate_description) =
  {| stdout := passing_report ∅ ++ eligible_header;
     exit := Raise UnicodeEncodeError |}.
Proof. reflexivity. Qed.

Example scenario_surrogate_category :
  exit (script lower_ascii (JArr surrogate_category))
    = Raise UnicodeEncodeError /\
  length (stdout (script lower_ascii (JArr surrogate_category))) = 12%nat /\
  drop 10 (stdout (script lower_ascii (JArr surrogate_category)))
    = [ [Fmt (JInt 2); Lit ". TEST "; Fmt (JInt 2); Lit ": ";
         Fmt (JStr "Settings page")];
        [Lit "   Complexity: "; Fmt (JStr "simple")] ].
Proof. split_and!; reflexivity. Qed.

(** Inside a list the surrogate is escaped by [repr] and printed. *)
Example scenario_surrogate_in_list :
  exists g,
    exit (script lower_ascii
            (JArr [obj [("passes", JBool false);
                        ("description", JStr "Settings page");
                        ("complexity", JStr "simple");
                        ("category", JArr [JStr lone_surrogate])]]))
    = OK g.
Proof. eexists. reflexivity. Qed.

(** A record that is not a [dict] stops the run before any output. *)
Example scenario_not_a_dict :
  script lower_ascii (JArr [JInt 7]) =
  {| stdout := []; exit := Raise AttributeError |}.
Proof. reflexivity. Qed.

(** A description that is not a [str] stops it after the first
    report. *)
Example scenario_description_number :
  script lower_ascii
    (JArr [obj [("passes", JBool false); ("description", JInt 7)]]) =
  {| stdout := passing_report ∅; exit := Raise AttributeError |}.
Proof. reflexivity. Qed.

(** * The specified properties *)

(** C1. For a sequence of records whose [passes] field, when present, is
    a boolean, the passing set is computed and holds exactly the numbers
    (position + 1) of the records whose [passes] is present and [true];
    the number of a record whose [passes] is absent or [false] is not
    in it. *)
Theorem passing_tests_exact (fs : list json) :
  forallb passes_typed fs = true ->
  exists P,
    passing_tests (JArr fs) = OK P /\
    (forall n, n ∈ P <->
       exists (k : nat) m, fs !! k = Some (JObj m) /\
         m !! "passes" = Some (JBool true) /\ n = Z.of_nat k + 1) /\
    (forall (k : nat) m, fs !! k = Some (JObj m) ->
       m !! "passes" = None \/ m !! "passes" = Some (JBool false) ->
       Z.of_nat k + 1 ∉ P).
Proof.
  intros Htyped. rewrite forallb_forall in Htyped.
  assert (Hobj : Forall (λ f, exists m, f = JObj m) fs).
  { apply Forall_forall. intros f Hf%list_elem_of_In%Htyped.
    destruct f; try discriminate. eauto. }
  destruct (passing_loop_total fs 0 ∅ Hobj) as [P HP].
  assert (Hrun : passing_tests (JArr fs) = OK P) by done.
  assert (Hiff : forall n, n ∈ P <->
       exists (k : nat) m, fs !! k = Some (JObj m) /\
         m !! "passes" = Some (JBool true) /\ n = Z.of_nat k + 1).
  { intros n. rewrite (passing_tests_truthy _ _ Hrun n).
    apply exist_proper; intros k. apply exist_proper; intros m. split.
    - intros (Hk & Ht & Hn). split_and!; [done| |done].
      apply passes_typed_truthy in Ht as [?|[_ [=]]]; [done|].
      apply Htyped, list_elem_of_In. by eapply list_elem_of_lookup_2.
    - intros (Hk & Hp & Hn). split_and!; [done| |done].
      unfold passes_or. by rewrite Hp. }
  exists P. split_and!; [done..|].
  intros k m Hk Hp (k' & m' & Hk' & Hp' & Heq)%Hiff.
  assert (k' = k) as -> by lia. naive_solver.
Qed.

(** C2. In a finished run on records whose [passes] field, when
    present, is a boolean, every candidate comes from a record whose
    [passes] is present and [false]; a record without a [passes] field
    gives no candidate. *)
Theorem candidate_passes_false lower (fs : list json) g :
  forallb passes_typed fs = true ->
  exit (script lower (JArr fs)) = OK g ->
  (forall c, c ∈ g_candidates g ->
     exists (k : nat) m, fs !! k = Some (JObj m) /\
       test_num c = Z.of_nat k + 1 /\
       m !! "passes" = Some (JBool false)) /\
  (forall (k : nat) m, fs !! k = Some (JObj m) ->
     m !! "passes" = None ->
     ~ exists c, c ∈ g_candidates g /\ test_num c = Z.of_nat k + 1).
Proof.
  intros Htyped Hrun. rewrite forallb_forall in Htyped.
  assert (Hfalse : forall (k : nat) m c,
            fs !! k = Some (JObj m) ->
            eligible lower (g_passing_tests g) (Z.of_nat k + 1) (JObj m)
              = OK (Some c) ->
            m !! "passes" = Some (JBool false)).
  { intros k m c Hk (m' & s & [= <-] & Hp & _)%eligible_Some.
    assert (Ht : passes_typed (JObj m) = true).
    { apply Htyped, list_elem_of_In. by eapply list_elem_of_lookup_2. }
    revert Ht Hp. unfold passes_typed, passes_or.
    by destruct (m !! "passes") as [[| [] | | | | |]|]. }
  split.
  - intros c Hc.
    destruct (candidate_origin lower _ _ _ Hrun Hc) as (k & m & Hk & Hn & He).
    exists k, m. eauto.
  - intros k m Hk Hnone (c & Hc & Hn).
    pose proof (candidate_of_record lower _ _ _ _ _ Hrun Hc Hk Hn) as He.
    apply Hfalse in He; [congruence | done].
Qed.

(** C7. In a finished run, every candidate comes from a record whose
    lower-cased description contains neither "database" nor
    "postgresql"; a record whose lower-cased description contains one
    of them gives no candidate, whatever its other fields. *)
Theorem candidate_not_database lower (fs : list json) g :
  exit (script lower (JArr fs)) = OK g ->
  (forall c, c ∈ g_candidates g ->
     exists (k : nat) m s, fs !! k = Some (JObj m) /\
       test_num c = Z.of_nat k + 1 /\
       default (JStr "") (m !! "description") = JStr s /\
       ~ substring_of "database" (lower s) /\
       ~ substring_of "postgresql" (lower s)) /\
  (forall (k : nat) m s, fs !! k = Some (JObj m) ->
     default (JStr "") (m !! "description") = JStr s ->
     substring_of "database" (lower s) \/ substring_of "postgresql" (lower s) ->
     ~ exists c, c ∈ g_candidates g /\ test_num c = Z.of_nat k + 1).
Proof.
  intros Hrun. split.
  - intros c Hc.
    destruct (candidate_origin lower _ _ _ Hrun Hc) as (k & m & Hk & Hn & He).
    apply eligible_Some in He
      as (m' & s & [= <-] & _ & Hd & Hdb & Hpg & _).
    exists k, m, s. by rewrite <- !str_in_false.
  - intros k m s Hk Hd Hsub (c & Hc & Hn).
    pose proof (candidate_of_record lower _ _ _ _ _ Hrun Hc Hk Hn) as He.
    apply eligible_Some in He
      as (m' & s' & [= <-] & _ & Hd' & Hdb & Hpg & _).
    assert (s' = s) as -> by congruence.
    rewrite !str_in_false in *. tauto.
Qed.

(** C8. In a finished run, every candidate comes from a record whose
    [complexity] is the string "simple" or the string "medium"; a
    record with any other [complexity], or none, gives no candidate. *)
Theorem candidate_complexity_bounded lower (fs : list json) g :
  exit (script lower (JArr fs)) = OK g ->
  (forall c, c ∈ g_candidates g ->
     exists (k : nat) m, fs !! k = Some (JObj m) /\
       test_num c = Z.of_nat k + 1 /\
       (m !! "complexity" = Some (JStr "simple") \/
        m !! "complexity" = Some (JStr "medium"))) /\
  (forall (k : nat) m, fs !! k = Some (JObj m) ->
     m !! "complexity" <> Some (JStr "simple") ->
     m !! "complexity" <> Some (JStr "medium") ->
     ~ exists c, c ∈ g_candidates g /\ test_num c = Z.of_nat k + 1).
Proof.
  intros Hrun. split.
  - intros c Hc.
    destruct (candidate_origin lower _ _ _ Hrun Hc) as (k & m & Hk & Hn & He).
    exists k, m. eauto using eligible_complexity.
  - intros k m Hk Hs Hm (c & Hc & Hn).
    pose proof (candidate_of_record lower _ _ _ _ _ Hrun Hc Hk Hn) as He.
    apply eligible_complexity in He. tauto.
Qed.

(** C9. In a finished run, every candidate comes from a record whose
    lower-cased description contains one of the nineteen keywords as a
    substring, anywhere in the text. *)
Theorem candidate_frontend_keyword lower (fs : list json) g :
  exit (script lower (JArr fs)) = OK g ->
  frontend_keywords =
    ["ui"; "page"; "navigate"; "button"; "display"; "viewer"; "interface";
     "layout"; "design"; "responsive"; "dark mode"; "logout"; "settings";
     "loading"; "error"; "form"; "input"; "modal"; "dialog"] /\
  (forall c, c ∈ g_candidates g ->
     exists (k : nat) m s keyword, fs !! k = Some (JObj m) /\
       test_num c = Z.of_nat k + 1 /\
       default (JStr "") (m !! "description") = JStr s /\
       keyword ∈ frontend_keywords /\
       substring_of keyword (lower s)) /\
  (forall text,
     existsb (λ keyword, str_in keyword text) frontend_keywords = true <->
     exists keyword, keyword ∈ frontend_keywords /\ substring_of keyword text).
Proof.
  intros Hrun. split_and!; [done| |apply frontend_match_spec]. intros c Hc.
  destruct (candidate_origin lower _ _ _ Hrun Hc) as (k & m & Hk & Hn & He).
  apply eligible_Some in He as (m' & s & [= <-] & _ & Hd & _ & _ & _ & _ & Hkw & _).
  apply frontend_match_spec in Hkw as (keyword & Hin & Hsub).
  by exists k, m, s, keyword.
Qed.

(** C4. In a finished run, the dependencies of a candidate, when they
    are a list, are all members of the passing set, which is the set
    the first loop computed; and the dependency check lets through a
    record whose [dependencies] are absent or the empty list. *)
Theorem candidate_dependencies_passing lower (fs : list json) g :
  exit (script lower (JArr fs)) = OK g ->
  passing_tests (JArr fs) = OK (g_passing_tests g) /\
  (forall c deps, c ∈ g_candidates g ->
     dependencies c = JArr deps ->
     forall dep, dep ∈ deps ->
       in_set dep (g_passing_tests g) = OK true /\
       (forall z, dep = JInt z -> z ∈ g_passing_tests g)) /\
  (forall P (m : gmap string json),
     m !! "dependencies" = None \/ m !! "dependencies" = Some (JArr []) ->
     (get (JObj m) "dependencies" (JArr []) ≫= λ deps, deps_met deps P)
       = OK true).
Proof.
  intros Hrun. split_and!.
  - by apply script_OK in Hrun as (cs & ? & _).
  - intros c deps Hc Hdeps dep Hdep.
    destruct (candidate_origin lower _ _ _ Hrun Hc) as (k & m & Hk & Hn & He).
    apply eligible_Some in He
      as (m' & s & [= <-] & _ & _ & _ & _ & _ & Hmet & _ & ->).
    simpl in Hdeps. rewrite Hdeps in Hmet.
    apply deps_met_list in Hmet. rewrite Forall_forall in Hmet.
    specialize (Hmet _ Hdep). split; [done|].
    intros z ->. by apply in_set_int.
  - intros P m [Hd|Hd]; simpl; by rewrite Hd.
Qed.

(** C10. In a finished run, the final candidates are the appended ones
    in another order, the report prints the first ten of them, and
    every one of them carries the fields of its record: the
    description, complexity and category as they are in the record, or
    the empty string when absent, and the dependencies as they are, or
    the empty list when absent.  The description is the original
    string, not the lower-cased copy the filters read. *)
Theorem candidate_fields_preserved lower (fs : list json) g :
  exit (script lower (JArr fs)) = OK g ->
  (exists cs,
     candidates lower (g_passing_tests g) (JArr fs) = OK cs /\
     g_candidates g ≡ₚ cs /\
     stdout (script lower (JArr fs)) =
       passing_report (g_passing_tests g) ++ eligible_header
       ++ report_loop 1 (take 10 (g_candidates g))) /\
  (forall c, c ∈ g_candidates g ->
     exists (k : nat) m, fs !! k = Some (JObj m) /\
       test_num c = Z.of_nat k + 1 /\
       description c = default (JStr "") (m !! "description") /\
       (exists s, description c = JStr s) /\
       complexity c = default (JStr "") (m !! "complexity") /\
       dependencies c = default (JArr []) (m !! "dependencies") /\
       category c = default (JStr "") (m !! "category")).
Proof.
  intros Hrun. split.
  - destruct (script_OK lower _ _ Hrun) as (cs & _ & Hcs & Hsort & Hout).
    exists cs. split_and!; [done| |done].
    rewrite Hsort. apply list_sort_perm.
  - intros c Hc.
    destruct (candidate_origin lower _ _ _ Hrun Hc) as (k & m & Hk & Hn & He).
    apply eligible_Some in He
      as (m' & s & [= <-] & _ & Hd & _ & _ & _ & _ & _ & ->).
    exists k, m. simpl. split_and!; try done. by exists s.
Qed.

(** C3. In a finished run, the sorted candidates are "simple" or
    "medium"; every "simple" one stands before every "medium" one; and
    of two candidates of the same complexity the earlier one has the
    strictly smaller number. *)
Theorem ranking_order lower (fs : list json) g :
  exit (script lower (JArr fs)) = OK g ->
  (forall c, c ∈ g_candidates g ->
     complexity c = JStr "simple" \/ complexity c = JStr "medium") /\
  (forall (i j : nat) ci cj,
     g_candidates g !! i = Some ci -> g_candidates g !! j = Some cj ->
     complexity ci = JStr "simple" -> complexity cj = JStr "medium" ->
     (i < j)%nat) /\
  (forall (i j : nat) ci cj,
     g_candidates g !! i = Some ci -> g_candidates g !! j = Some cj ->
     (i < j)%nat -> complexity ci = complexity cj ->
     test_num ci < test_num cj).
Proof.
  intros Hrun.
  assert (Hsorted : sorted_by sort_key key_lt (g_candidates g)).
  { destruct (script_OK lower _ _ Hrun) as (cs & _ & _ & -> & _).
    apply list_sort_sorted; [apply key_lt_asym | apply key_lt_negtrans]. }
  pose proof (candidates_NoDup lower _ _ Hrun) as Hnodup.
  split_and!.
  - intros c Hc. by eapply candidate_complexity.
  - intros i j ci cj Hi Hj Hsimple Hmedium.
    destruct (Nat.lt_trichotomy i j) as [?|[->|Hji]]; [done| |].
    + congruence.
    + pose proof (sorted_by_lookup _ _ _ _ _ _ _ Hsorted Hj Hi Hji) as Hkey.
      unfold key_lt, sort_key in Hkey. by rewrite Hsimple, Hmedium in Hkey.
  - intros i j ci cj Hi Hj Hij Hsame.
    pose proof (sorted_by_lookup _ _ _ _ _ _ _ Hsorted Hi Hj Hij) as Hkey.
    unfold key_lt, sort_key in Hkey. simpl in Hkey.
    rewrite Hsame, Bool.eqb_reflx in Hkey.
    assert (test_num ci <> test_num cj).
    { intros Heq.
      assert (i = j); [|lia].
      eapply (NoDup_lookup _ i j (test_num ci) Hnodup);
        rewrite list_lookup_fmap; [by rewrite Hi | by rewrite Hj, Heq]. }
    lia.
Qed.



(** C6. When the text of the file is not JSON, the script ends with the
    parser's exception and has printed nothing. *)
Theorem malformed_input_no_output lower json_load (text : string) :
  json_load text = None ->
  main lower json_load (Some text)
    = {| stdout := []; exit := Raise JSONDecodeError |}.
Proof. intros Hload. unfold main. by rewrite Hload. Qed.

(** * The properties on the examples *)

Lemma passing_tests_exact_witness :
  forallb passes_typed two_features = true /\
  exists P,
    passing_tests (JArr two_features) = OK P /\
    (forall n, n ∈ P <->
       exists (k : nat) m, two_features !! k = Some (JObj m) /\
         m !! "passes" = Some (JBool true) /\ n = Z.of_nat k + 1) /\
    (forall (k : nat) m, two_features !! k = Some (JObj m) ->
       m !! "passes" = None \/ m !! "passes" = Some (JBool false) ->
       Z.of_nat k + 1 ∉ P).
Proof.
  split; [reflexivity|].
  apply (passing_tests_exact two_features). reflexivity.
Defined.

Lemma candidate_passes_false_witness :
  forallb passes_typed two_features = true /\
  exit (script lower_ascii (JArr two_features)) = OK two_features_final /\
  (forall c, c ∈ g_candidates two_features_final ->
     exists (k : nat) m, two_features !! k = Some (JObj m) /\
       test_num c = Z.of_nat k + 1 /\
       m !! "passes" = Some (JBool false)) /\
  (forall (k : nat) m, two_features !! k = Some (JObj m) ->
     m !! "passes" = None ->
     ~ exists c, c ∈ g_candidates two_features_final /\
         test_num c = Z.of_nat k + 1).
Proof.
  split; [reflexivity|]. split; [reflexivity|].
  apply (candidate_passes_false lower_ascii two_features two_features_final);
    reflexivity.
Defined.

Lemma ranking_order_witness :
  exit (script lower_ascii (JArr fifteen_features)) = OK fifteen_final /\
  (forall c, c ∈ g_candidates fifteen_final ->
     complexity c = JStr "simple" \/ complexity c = JStr "medium") /\
  (forall (i j : nat) ci cj,
     g_candidates fifteen_final !! i = Some ci ->
     g_candidates fifteen_final !! j = Some cj ->
     complexity ci = JStr "simple" -> complexity cj = JStr "medium" ->
     (i < j)%nat) /\
  (forall (i j : nat) ci cj,
     g_candidates fifteen_final !! i = Some ci ->
     g_candidates fifteen_final !! j = Some cj ->
     (i < j)%nat -> complexity ci = complexity cj ->
     test_num ci < test_num cj).
Proof.
  split; [reflexivity|].
  apply (ranking_order lower_ascii fifteen_features fifteen_final).
  reflexivity.
Defined.

Lemma candidate_dependencies_passing_witness :
  exit (script lower_ascii (JArr two_features)) = OK two_features_final /\
  passing_tests (JArr two_features) = OK (g_passing_tests two_features_final) /\
  (forall c deps, c ∈ g_candidates two_features_final ->
     dependencies c = JArr deps ->
     forall dep, dep ∈ deps ->
       in_set dep (g_passing_tests two_features_final) = OK true /\
       (forall z, dep = JInt z -> z ∈ g_passing_tests two_features_final)) /\
  (forall P (m : gmap string json),
     m !! "dependencies" = None \/ m !! "dependencies" = Some (JArr []) ->
     (get (JObj m) "dependencies" (JArr []) ≫= λ deps, deps_met deps P)
       = OK true).
Proof.
  split; [reflexivity|].
  apply (candidate_dependencies_passing lower_ascii two_features
           two_features_final).
  reflexivity.
Defined.


Lemma malformed_input_no_output_witness :
  json_load_atom "{oops" = None /\
  main lower_ascii json_load_atom (Some "{oops")
    = {| stdout := []; exit := Raise JSONDecodeError |}.
Proof.
  split; [reflexivity|].
  apply (malformed_input_no_output lower_ascii json_load_atom "{oops").
  reflexivity.
Defined.

Lemma candidate_not_database_witness :
  exit (script lower_ascii (JArr two_features)) = OK two_features_final /\
  (forall c, c ∈ g_candidates two_features_final ->
     exists (k : nat) m s, two_features !! k = Some (JObj m) /\
       test_num c = Z.of_nat k + 1 /\
       default (JStr "") (m !! "description") = JStr s /\
       ~ substring_of "database" (lower_ascii s) /\
       ~ substring_of "postgresql" (lower_ascii s)) /\
  (forall (k : nat) m s, two_features !! k = Some (JObj m) ->
     default (JStr "") (m !! "description") = JStr s ->
     substring_of "database" (lower_ascii s) \/
     substring_of "postgresql" (lower_ascii s) ->
     ~ exists c, c ∈ g_candidates two_features_final /\
         test_num c = Z.of_nat k + 1).
Proof.
  split; [reflexivity|].
  apply (candidate_not_database lower_ascii two_features two_features_final).
  reflexivity.
Defined.

Lemma candidate_complexity_bounded_witness :
  exit (script lower_ascii (JArr two_features)) = OK two_features_final /\
  (forall c, c ∈ g_candidates two_features_final ->
     exists (k : nat) m, two_features !! k = Some (JObj m) /\
       test_num c = Z.of_nat k + 1 /\
       (m !! "complexity" = Some (JStr "simple") \/
        m !! "complexity" = Some (JStr "medium"))) /\
  (forall (k : nat) m, two_features !! k = Some (JObj m) ->
     m !! "complexity" <> Some (JStr "simple") ->
     m !! "complexity" <> Some (JStr "medium") ->
     ~ exists c, c ∈ g_candidates two_features_final /\
         test_num c = Z.of_nat k + 1).
Proof.
  split; [reflexivity|].
  apply (candidate_complexity_bounded lower_ascii two_features
           two_features_final).
  reflexivity.
Defined.

Lemma candidate_frontend_keyword_witness :
  exit (script lower_ascii (JArr two_features)) = OK two_features_final /\
  forall c, c ∈ g_candidates two_features_final ->
    exists (k : nat) m s keyword, two_features !! k = Some (JObj m) /\
      test_num c = Z.of_nat k + 1 /\
      default (JStr "") (m !! "description") = JStr s /\
      keyword ∈ frontend_keywords /\
      substring_of keyword (lower_ascii s).
Proof.
  split; [reflexivity|].
  apply (candidate_frontend_keyword lower_ascii two_features
           two_features_final).
  reflexivity.
Defined.

Lemma candidate_fields_preserved_witness :
  exit (script lower_ascii (JArr two_features)) = OK two_features_final /\
  forall c, c ∈ g_candidates two_features_final ->
    exists (k : nat) m, two_features !! k = Some (JObj m) /\
      test_num c = Z.of_nat k + 1 /\
      description c = default (JStr "") (m !! "description") /\
      (exists s, description c = JStr s) /\
      complexity c = default (JStr "") (m !! "complexity") /\
      dependencies c = default (JArr []) (m !! "dependencies") /\
      category c = default (JStr "") (m !! "category").
Proof.
  split; [reflexivity|].
  apply (candidate_fields_preserved lower_ascii two_features
           two_features_final).
  reflexivity.
Defined.


(** * Further properties of the script *)

(** ** The first loop *)



Lemma is_dict_true feature : is_dict feature = true <-> exists m, feature = JObj m.
Proof.
  destruct feature; simpl; split; try done; try (by intros [? [=]]). eauto.
Qed.

Lemma passing_loop_Raise fs : forall i P0,
  forallb is_dict fs = false -> passing_loop i fs P0 = Raise AttributeError.
Proof.
  induction fs as [|f rest IH]; intros i P0; [discriminate|].
  simpl forallb. rewrite passing_loop_cons.
  destruct f; try done. simpl. intros H. by apply IH.
Qed.

(** X1. A list with an item that is not a dict stops the script in the
    first loop: [AttributeError], and nothing is printed. *)
Theorem non_dict_record_fails lower (fs : list json) :
  forallb is_dict fs = false ->
  passing_tests (JArr fs) = Raise AttributeError /\
  script lower (JArr fs) = {| stdout := []; exit := Raise AttributeError |}.
Proof.
  intros Hfs.
  assert (H : passing_tests (JArr fs) = Raise AttributeError).
  { unfold passing_tests. simpl. by apply passing_loop_Raise. }
  split; [done|]. unfold script. by rewrite H.
Qed.

Lemma non_dict_record_fails_witness :
  forallb is_dict [obj [("passes", JBool true)]; JArr []] = false /\
  passing_tests (JArr [obj [("passes", JBool true)]; JArr []])
    = Raise AttributeError /\
  script lower_ascii (JArr [obj [("passes", JBool true)]; JArr []])
    = {| stdout := []; exit := Raise AttributeError |}.
Proof.
  split; [reflexivity|].
  apply (non_dict_record_fails lower_ascii). reflexivity.
Defined.

(** X2. On a list of dicts, whatever their fields hold, the first loop
    ends; its set holds the numbers of the records whose [passes] has
    a true truth value, and every number in it is between 1 and the
    length of the list. *)
Theorem passing_tests_of_dicts (fs : list json) :
  forallb is_dict fs = true ->
  exists P,
    passing_tests (JArr fs) = OK P /\
    (forall n, n ∈ P <->
       exists (k : nat) m, fs !! k = Some (JObj m) /\
         truthy (default (JBool false) (m !! "passes")) = true /\
         n = Z.of_nat k + 1) /\
    (forall n, n ∈ P -> 1 <= n <= Z.of_nat (length fs)).
Proof.
  intros Hfs. rewrite forallb_forall in Hfs.
  assert (Hobj : Forall (λ f, exists m, f = JObj m) fs).
  { apply Forall_forall. intros f Hf%list_elem_of_In%Hfs.
    by apply is_dict_true. }
  destruct (passing_loop_total fs 0 ∅ Hobj) as [P HP].
  assert (Hrun : passing_tests (JArr fs) = OK P) by done.
  exists P. split_and!; [done|apply (passing_tests_truthy _ _ Hrun)|].
  intros n (k & m & Hk%lookup_lt_Some & _ & ->)%(passing_tests_truthy _ _ Hrun).
  lia.
Qed.

Lemma passing_tests_of_dicts_witness :
  forallb is_dict two_features = true /\
  exists P,
    passing_tests (JArr two_features) = OK P /\
    (forall n, n ∈ P <->
       exists (k : nat) m, two_features !! k = Some (JObj m) /\
         truthy (default (JBool false) (m !! "passes")) = true /\
         n = Z.of_nat k + 1) /\
    (forall n, n ∈ P -> 1 <= n <= Z.of_nat (length two_features)).
Proof.
  split; [reflexivity|].
  apply (passing_tests_of_dicts two_features). reflexivity.
Defined.

(** ** The report of the passing tests *)

Lemma sorted_le_NoDup_lt (l : list Z) :
  Sorted Z.le l -> NoDup l -> StronglySorted Z.lt l.
Proof.
  intros Hs%Sorted_StronglySorted; [|intros ???; lia].
  induction Hs as [|x l Hl IH Hx]; intros Hnd; [constructor|].
  apply NoDup_cons in Hnd as [Hnotin Hnd]. constructor; [by apply IH|].
  rewrite Forall_forall in Hx |- *. intros y Hy.
  assert (x <> y) by (by intros ->). specialize (Hx y Hy). lia.
Qed.

(** X3. Once the first loop has ended, the second line printed is the
    list of the passing numbers in strictly ascending order: each
    member of the set once, and nothing else. *)
Theorem passing_report_ascending lower (features : json) P :
  passing_tests features = OK P ->
  exists l,
    stdout (script lower features) !! 0%nat = Some [Lit "=== PASSING TESTS ==="] /\
    stdout (script lower features) !! 1%nat = Some [Fmt (JArr (JInt <$> l))] /\
    stdout (script lower features) !! 2%nat = Some [] /\
    StronglySorted Z.lt l /\
    (forall n, n ∈ l <-> n ∈ P).
Proof.
  intros HP. exists (merge_sort Z.le (elements P)).
  assert (Hperm : merge_sort Z.le (elements P) ≡ₚ elements P)
    by apply merge_sort_Permutation.
  rewrite script_eq, HP. cbv beta iota.
  split_and!.
  - by destruct (candidates lower P features).
  - by destruct (candidates lower P features).
  - by destruct (candidates lower P features).
  - apply sorted_le_NoDup_lt.
    + apply (Sorted_merge_sort Z.le).
    + rewrite Hperm. apply NoDup_elements.
  - intros n. by rewrite Hperm, elem_of_elements.
Qed.

Lemma passing_report_ascending_witness :
  passing_tests (JArr two_features) = OK {[ 1 ]} /\
  exists l,
    stdout (script lower_ascii (JArr two_features)) !! 0%nat
      = Some [Lit "=== PASSING TESTS ==="] /\
    stdout (script lower_ascii (JArr two_features)) !! 1%nat
      = Some [Fmt (JArr (JInt <$> l))] /\
    stdout (script lower_ascii (JArr two_features)) !! 2%nat = Some [] /\
    StronglySorted Z.lt l /\
    (forall n, n ∈ l <-> n ∈ ({[ 1 ]} : gset Z)).
Proof.
  split; [reflexivity|].
  apply (passing_report_ascending lower_ascii (JArr two_features)).
  reflexivity.
Defined.

(** ** The candidates before the sort *)

Lemma strictly_sorted_length (l : list Z) : forall a b,
  StronglySorted Z.lt l -> Forall (λ x, a < x <= b) l ->
  Z.of_nat (length l) <= Z.max 0 (b - a).
Proof.
  induction l as [|x l IH]; intros a b Hs Hb; simpl length; [lia|].
  apply StronglySorted_inv in Hs as [Hs Hx].
  apply Forall_cons in Hb as [Hxb Hb].
  assert (Hb' : Forall (λ y, x < y <= b) l).
  { rewrite Forall_forall in Hx, Hb |- *. intros y Hy.
    specialize (Hx y Hy). specialize (Hb y Hy). simpl in *. lia. }
  specialize (IH x b Hs Hb'). lia.
Qed.

(** X4. The second loop appends the candidates in the order of the
    input: their numbers increase strictly, lie between 1 and the
    length of the list, and there are no more candidates than
    records. *)
Theorem candidates_in_input_order lower P (fs : list json) cs :
  candidates lower P (JArr fs) = OK cs ->
  StronglySorted Z.lt (test_num <$> cs) /\
  (forall c, c ∈ cs -> 1 <= test_num c <= Z.of_nat (length fs)) /\
  (length cs <= length fs)%nat.
Proof.
  unfold candidates. simpl. intros Hcs.
  apply candidates_loop_spec in Hcs as (new & -> & Hnew & Hsorted & Hlt).
  simpl.
  assert (Hrange : forall c, c ∈ new -> 1 <= test_num c <= Z.of_nat (length fs)).
  { intros c Hc. apply Hnew in Hc as (k & f & Hk & He).
    apply lookup_lt_Some in Hk.
    apply eligible_Some in He as (? & ? & _ & _ & _ & _ & _ & _ & _ & _ & ->).
    simpl. lia. }
  split_and!; [done..|].
  pose proof (strictly_sorted_length (test_num <$> new) 0
                (Z.of_nat (length fs)) Hsorted) as Hlen.
  rewrite length_fmap in Hlen.
  assert (Z.of_nat (length new) <= Z.max 0 (Z.of_nat (length fs) - 0)); [|lia].
  apply Hlen. apply Forall_fmap, Forall_forall. intros c Hc.
  specialize (Hrange c Hc). simpl. lia.
Qed.

Lemma candidates_in_input_order_witness :
  candidates lower_ascii ∅ (JArr fifteen_features) = OK fifteen_candidates /\
  StronglySorted Z.lt (test_num <$> fifteen_candidates) /\
  (forall c, c ∈ fifteen_candidates ->
     1 <= test_num c <= Z.of_nat (length fifteen_features)) /\
  (length fifteen_candidates <= length fifteen_features)%nat.
Proof.
  split; [reflexivity|].
  apply (candidates_in_input_order lower_ascii ∅ fifteen_features).
  reflexivity.
Defined.

(** ** Candidates and passing tests *)

Lemma not_failing_not_passing m :
  truthy (passes_or true m) = false -> truthy (passes_or false m) = false.
Proof. unfold passes_or. by destruct (m !! "passes"). Qed.

Section Disjoint.
Variable lower : string -> string.

Lemma candidate_not_passing fs g c :
  exit (script lower (JArr fs)) = OK g ->
  c ∈ g_candidates g -> test_num c ∉ g_passing_tests g.
Proof.
  intros Hrun Hc Hin.
  destruct (candidate_origin lower _ _ _ Hrun Hc) as (k & m & Hk & Hn & He).
  apply eligible_Some in He as (m' & s & [= <-] & Hp & _).
  apply script_OK in Hrun as (cs & HP & _).
  apply (passing_tests_truthy _ _ HP) in Hin as (k' & m' & Hk' & Ht & Hn').
  assert (k' = k) as -> by lia.
  assert (m' = m) as -> by congruence.
  apply not_failing_not_passing in Hp. congruence.
Qed.
End Disjoint.

(** X5. In a finished run no feature is both passing and a candidate;
    hence no candidate lists a candidate, or itself, among its
    dependencies. *)
Theorem candidates_disjoint_from_passing lower (fs : list json) g :
  exit (script lower (JArr fs)) = OK g ->
  (forall c, c ∈ g_candidates g -> test_num c ∉ g_passing_tests g) /\
  (forall c c' deps, c ∈ g_candidates g -> c' ∈ g_candidates g ->
     dependencies c = JArr deps -> JInt (test_num c') ∉ deps).
Proof.
  intros Hrun. split; [intros c; by apply (candidate_not_passing lower fs)|].
  intros c c' deps Hc Hc' Hdeps Hin.
  apply (candidate_not_passing lower fs g c' Hrun Hc').
  destruct (candidate_origin lower _ _ _ Hrun Hc) as (k & m & Hk & Hn & He).
  apply eligible_Some in He
    as (m' & s & [= <-] & _ & _ & _ & _ & _ & Hmet & _ & ->).
  simpl in Hdeps. rewrite Hdeps in Hmet.
  apply deps_met_list in Hmet. rewrite Forall_forall in Hmet.
  by apply in_set_int, Hmet.
Qed.

Lemma candidates_disjoint_from_passing_witness :
  exit (script lower_ascii (JArr two_features)) = OK two_features_final /\
  (forall c, c ∈ g_candidates two_features_final ->
     test_num c ∉ g_passing_tests two_features_final) /\
  (forall c c' deps, c ∈ g_candidates two_features_final ->
     c' ∈ g_candidates two_features_final ->
     dependencies c = JArr deps -> JInt (test_num c') ∉ deps).
Proof.
  split; [reflexivity|].
  apply (candidates_disjoint_from_passing lower_ascii two_features
           two_features_final).
  reflexivity.
Defined.

(** X6. In a finished run the candidates and the passing tests
    together are no more than the records. *)
Theorem candidates_and_passing_count lower (fs : list json) g :
  exit (script lower (JArr fs)) = OK g ->
  (length (g_candidates g) + size (g_passing_tests g) <= length fs)%nat.
Proof.
  intros Hrun.
  pose proof (candidates_NoDup lower _ _ Hrun) as Hnd.
  pose proof Hrun as (cs & HP & Hcs & Hsort & _)%script_OK.
  set (nums := (test_num <$> g_candidates g) ++ elements (g_passing_tests g)).
  assert (Hnums : NoDup nums).
  { apply NoDup_app. split_and!; [done| |apply NoDup_elements].
    intros n (c & -> & Hc)%list_elem_of_fmap Hin%elem_of_elements.
    by apply (candidate_not_passing lower fs g c Hrun Hc). }
  assert (Hsub : nums ⊆+ seqZ 1 (Z.of_nat (length fs))).
  { apply NoDup_submseteq; [done|]. intros n Hn. apply elem_of_seqZ.
    apply elem_of_app in Hn as [(c & -> & Hc)%list_elem_of_fmap|Hn%elem_of_elements].
    - destruct (candidate_origin lower _ _ _ Hrun Hc)
        as (k & m & Hk%lookup_lt_Some & Hn & _). lia.
    - apply (passing_tests_truthy _ _ HP) in Hn
        as (k & m & Hk%lookup_lt_Some & _ & ->). lia. }
  apply submseteq_length in Hsub.
  unfold nums in Hsub.
  rewrite length_app, length_fmap, length_seqZ in Hsub.
  change (length (elements (g_passing_tests g)))
    with (size (g_passing_tests g)) in Hsub.
  lia.
Qed.

Lemma candidates_and_passing_count_witness :
  exit (script lower_ascii (JArr two_features)) = OK two_features_final /\
  (length (g_candidates two_features_final)
   + size (g_passing_tests two_features_final) <= length two_features)%nat.
Proof.
  split; [reflexivity|].
  apply (candidates_and_passing_count lower_ascii two_features
           two_features_final).
  reflexivity.
Defined.

(** ** The ranking *)

Section insert_sorted_props.
Context {A K : Type} (key : A -> K) (lt : K -> K -> bool).

Lemma insert_sorted_front x l :
  Forall (λ y, lt (key y) (key x) = false) l ->
  insert_sorted key lt x l = x :: l.
Proof. destruct 1 as [|y l Hy _]; simpl; [done|]. by rewrite Hy. Qed.

Lemma insert_sorted_skip x l1 l2 :
  Forall (λ y, lt (key y) (key x) = true) l1 ->
  insert_sorted key lt x (l1 ++ l2) = l1 ++ insert_sorted key lt x l2.
Proof.
  induction 1 as [|y l1 Hy _ IH]; simpl; [done|]. by rewrite Hy, IH.
Qed.
End insert_sorted_props.

Lemma list_sort_tiers (cs : list candidate) :
  Forall (λ c, complexity c = JStr "simple" \/ complexity c = JStr "medium") cs ->
  StronglySorted Z.lt (test_num <$> cs) ->
  list_sort sort_key key_lt cs =
    filter (λ c, is_simple c = true) cs ++ filter (λ c, is_medium c = true) cs.
Proof.
  induction cs as [|c cs IH]; [done|].
  intros [Hc Hcs]%Forall_cons. rewrite fmap_cons.
  intros [Hs Hlt]%StronglySorted_inv.
  simpl list_sort. fold (list_sort sort_key key_lt cs). rewrite (IH Hcs Hs).
  rewrite Forall_fmap, Forall_forall in Hlt. simpl in Hlt.
  destruct Hc as [Hc|Hc].
  - rewrite (filter_cons_True _ c) by (unfold is_simple; by rewrite Hc).
    rewrite (filter_cons_False _ c) by (unfold is_medium; by rewrite Hc).
    apply insert_sorted_front. apply Forall_forall. intros y Hy.
    assert (Hy' : y ∈ cs).
    { apply elem_of_app in Hy as [Hy|Hy];
        by apply list_elem_of_filter in Hy as [_ ?]. }
    specialize (Hlt y Hy'). unfold key_lt, sort_key. simpl. rewrite Hc. simpl.
    destruct (eq_str (complexity y) "medium"); simpl; [done|lia].
  - rewrite (filter_cons_False _ c) by (unfold is_simple; by rewrite Hc).
    rewrite (filter_cons_True _ c) by (unfold is_medium; by rewrite Hc).
    rewrite insert_sorted_skip.
    + f_equal. apply insert_sorted_front. apply Forall_forall. intros y Hy.
      apply list_elem_of_filter in Hy as [Hm Hy]. specialize (Hlt y Hy).
      unfold key_lt, sort_key. simpl. unfold is_medium in Hm.
      rewrite Hm, Hc. simpl. lia.
    + apply Forall_forall. intros y Hy.
      apply list_elem_of_filter in Hy as [Hsimple Hy].
      rewrite Forall_forall in Hcs. unfold is_simple in Hsimple.
      unfold key_lt, sort_key. simpl. rewrite Hc.
      destruct (Hcs y Hy) as [Hy'|Hy']; rewrite Hy' in Hsimple |- *;
        [done|discriminate].
Qed.

(** X7. In a finished run the sorted candidates are the simple ones in
    the order of the input, then the medium ones in the order of the
    input. *)
Theorem ranking_is_two_tiers lower (fs : list json) g :
  exit (script lower (JArr fs)) = OK g ->
  exists cs,
    candidates lower (g_passing_tests g) (JArr fs) = OK cs /\
    g_candidates g =
      filter (λ c, is_simple c = true) cs ++ filter (λ c, is_medium c = true) cs.
Proof.
  intros Hrun.
  pose proof Hrun as (cs & _ & Hcs & Hsort & _)%script_OK.
  exists cs. split; [done|]. rewrite Hsort. apply list_sort_tiers.
  - apply Forall_forall. intros c Hc.
    apply (candidate_complexity lower fs g c Hrun).
    by rewrite Hsort, list_sort_perm.
  - unfold candidates in Hcs. simpl in Hcs.
    by apply candidates_loop_spec in Hcs as (new & -> & _ & ? & _).
Qed.

Lemma ranking_is_two_tiers_witness :
  exit (script lower_ascii (JArr fifteen_features)) = OK fifteen_final /\
  exists cs,
    candidates lower_ascii (g_passing_tests fifteen_final)
      (JArr fifteen_features) = OK cs /\
    g_candidates fifteen_final =
      filter (λ c, is_simple c = true) cs ++ filter (λ c, is_medium c = true) cs.
Proof.
  split; [reflexivity|].
  apply (ranking_is_two_tiers lower_ascii fifteen_features fifteen_final).
  reflexivity.
Defined.

(** ** The report of the candidates *)

Lemma report_loop_block l : forall i (j : nat) c,
  l !! j = Some c ->
  take 5 (drop (5 * j) (report_loop i l)) = block (i + Z.of_nat j) c.
Proof.
  induction l as [|c0 l IH]; intros i j c Hj; [by rewrite lookup_nil in Hj|].
  destruct j as [|j].
  - injection Hj as ->. simpl. by rewrite Z.add_0_r.
  - simpl in Hj. replace (5 * S j)%nat with (5 + 5 * j)%nat by lia.
    change (report_loop i (c0 :: l))
      with (block i c0 ++ report_loop (i + 1) l).
    change (drop (5 + 5 * j) (block i c0 ++ report_loop (i + 1) l))
      with (drop (5 * j) (report_loop (i + 1) l)).
    rewrite (IH (i + 1) j c Hj). f_equal. lia.
Qed.

(** X8. In a finished run the candidate at position [j] of the sorted
    list, for [j] below 10, is printed as the block of five lines that
    starts at line [5 + 5 * j], under the rank [j + 1]. *)
Theorem report_block_of_rank lower (features : json) g (j : nat) c :
  exit (script lower features) = OK g ->
  (j < 10)%nat ->
  g_candidates g !! j = Some c ->
  take 5 (drop (5 + 5 * j) (stdout (script lower features)))
    = block (Z.of_nat j + 1) c.
Proof.
  intros (cs & _ & _ & _ & ->)%script_OK Hj Hc.
  change (drop (5 + 5 * j)
            (passing_report (g_passing_tests g) ++ eligible_header
             ++ report_loop 1 (take 10 (g_candidates g))))
    with (drop (5 * j) (report_loop 1 (take 10 (g_candidates g)))).
  rewrite (report_loop_block _ 1 j c); [f_equal; lia|].
  by rewrite lookup_take, decide_True.
Qed.

Lemma report_block_of_rank_witness :
  exit (script lower_ascii (JArr fifteen_features)) = OK fifteen_final /\
  (9 < 10)%nat /\
  g_candidates fifteen_final !! 9%nat = Some (settings_candidate "medium" 1) /\
  take 5 (drop (5 + 5 * 9) (stdout (script lower_ascii (JArr fifteen_features))))
    = block (Z.of_nat 9 + 1) (settings_candidate "medium" 1).
Proof.
  split; [reflexivity|]. split; [lia|]. split; [reflexivity|].
  apply (report_block_of_rank lower_ascii (JArr fifteen_features)
           fifteen_final 9 (settings_candidate "medium" 1));
    [reflexivity | lia | reflexivity].
Defined.

(** ** The shape of a candidate's dependencies *)

(** X9. In a finished run the dependencies a candidate carries are
    either a false truth value (the report shows "None") or a list
    that is not empty; the report never shows an empty list, a string
    or a dict of dependencies. *)
Theorem candidate_dependencies_shape lower (fs : list json) g c :
  exit (script lower (JArr fs)) = OK g ->
  c ∈ g_candidates g ->
  truthy (dependencies c) = false \/
  exists dep rest, dependencies c = JArr (dep :: rest).
Proof.
  intros Hrun Hc.
  destruct (candidate_origin lower _ _ _ Hrun Hc) as (k & m & Hk & Hn & He).
  apply eligible_Some in He
    as (m' & s & [= <-] & _ & _ & _ & _ & _ & Hmet & _ & ->).
  simpl. by apply (deps_met_shape _ (g_passing_tests g)).
Qed.

Lemma candidate_dependencies_shape_witness :
  exit (script lower_ascii (JArr two_features)) = OK two_features_final /\
  dark_mode_candidate ∈ g_candidates two_features_final /\
  (truthy (dependencies dark_mode_candidate) = false \/
   exists dep rest, dependencies dark_mode_candidate = JArr (dep :: rest)).
Proof.
  split; [reflexivity|]. split; [apply list_elem_of_here|].
  apply (candidate_dependencies_shape lower_ascii two_features
           two_features_final dark_mode_candidate);
    [reflexivity | apply list_elem_of_here].
Defined.

(** ** Exceptions *)






Section Exceptions.
Variable lower : string -> string.




(** The second loop ends only if its body ends on every record. *)
Lemma candidates_loop_each P fs : forall i acc cs,
  candidates_loop lower P i fs acc = OK cs ->
  forall (k : nat) f, fs !! k = Some f ->
    exists r, eligible lower P (i + Z.of_nat k + 1) f = OK r.
Proof.
  induction fs as [|f0 rest IH]; intros i acc cs Hcs k f Hk;
    [by rewrite lookup_nil in Hk|].
  rewrite candidates_loop_cons in Hcs.
  apply bind_OK in Hcs as (r & Hr & Hrest).
  destruct k as [|k].
  - injection Hk as <-. exists r. by rewrite Z.add_0_r.
  - simpl in Hk. destruct (IH _ _ _ Hrest k f Hk) as [r' Hr'].
    exists r'. rewrite <- Hr'. f_equal. lia.
Qed.
End Exceptions.





(** ** Fields the script does not read *)

Lemma unknown_key_ne key :
  existsb (String.eqb key) known_keys = false ->
  key <> "passes" /\ key <> "description" /\ key <> "complexity" /\
  key <> "dependencies" /\ key <> "category".
Proof.
  simpl. rewrite !orb_false_iff, !String.eqb_neq. tauto.
Qed.

Lemma passing_loop_ext fs fs' :
  Forall2 (λ f f', get f "passes" (JBool false) = get f' "passes" (JBool false))
    fs fs' ->
  forall i P0, passing_loop i fs P0 = passing_loop i fs' P0.
Proof.
  induction 1 as [|f f' fs fs' Hf _ IH]; intros i P0; [done|].
  rewrite !passing_loop_cons, Hf.
  destruct (get f' "passes" (JBool false)); simpl; [apply IH|done].
Qed.

Section Unknown.
Variable lower : string -> string.

Lemma candidates_loop_ext P fs fs' :
  Forall2 (λ f f', forall n, eligible lower P n f = eligible lower P n f')
    fs fs' ->
  forall i acc,
    candidates_loop lower P i fs acc = candidates_loop lower P i fs' acc.
Proof.
  induction 1 as [|f f' fs fs' Hf _ IH]; intros i acc; [done|].
  rewrite !candidates_loop_cons, Hf.
  destruct (eligible lower P (i + 1) f'); simpl; [apply IH|done].
Qed.

Lemma eligible_insert_unknown P n m key v :
  existsb (String.eqb key) known_keys = false ->
  eligible lower P n (JObj (<[key:=v]> m)) = eligible lower P n (JObj m).
Proof.
  intros (? & ? & ? & ? & ?)%unknown_key_ne.
  unfold eligible, get. by rewrite !lookup_insert_ne.
Qed.
End Unknown.

(** X11. A field under any other name than the five the script reads
    changes nothing: adding it to a record, or changing it, leaves the
    output and the final variables as they were. *)
Theorem unknown_field_ignored lower (fs : list json) (i : nat) m key v :
  fs !! i = Some (JObj m) ->
  existsb (String.eqb key) known_keys = false ->
  script lower (JArr (<[i := JObj (<[key := v]> m)]> fs))
    = script lower (JArr fs).
Proof.
  intros Hi Hkey.
  pose proof (unknown_key_ne key Hkey) as (Hp & _).
  set (fs' := <[i := JObj (<[key := v]> m)]> fs).
  assert (Hfs : fs = <[i := JObj m]> fs) by (by rewrite list_insert_id).
  assert (HP : passing_tests (JArr fs') = passing_tests (JArr fs)).
  { unfold passing_tests. simpl. apply passing_loop_ext.
    rewrite Hfs at 1. unfold fs'. apply Forall2_insert.
    - by apply Forall_Forall2_diag, Forall_forall.
    - unfold get. by rewrite lookup_insert_ne. }
  assert (Hcs : forall P,
            candidates lower P (JArr fs') = candidates lower P (JArr fs)).
  { intros P. unfold candidates. simpl. apply candidates_loop_ext.
    rewrite Hfs at 1. unfold fs'. apply Forall2_insert.
    - by apply Forall_Forall2_diag, Forall_forall.
    - intros n. by apply eligible_insert_unknown. }
  unfold script. rewrite HP.
  destruct (passing_tests (JArr fs)) as [P|e]; [|done]. by rewrite Hcs.
Qed.

Lemma unknown_field_ignored_witness :
  two_features !! 1%nat
    = Some (JObj (list_to_map
         [("passes", JBool false);
          ("description", JStr "Add dark mode toggle button");
          ("complexity", JStr "simple");
          ("dependencies", JArr [JInt 1]);
          ("category", JStr "UI")])) /\
  existsb (String.eqb "priority") known_keys = false /\
  script lower_ascii
    (JArr (<[1%nat := JObj (<["priority" := JInt 3]>
         (list_to_map
            [("passes", JBool false);
             ("description", JStr "Add dark mode toggle button");
             ("complexity", JStr "simple");
             ("dependencies", JArr [JInt 1]);
             ("category", JStr "UI")]))]> two_features))
    = script lower_ascii (JArr two_features).
Proof.
  split; [reflexivity|]. split; [reflexivity|].
  apply (unknown_field_ignored lower_ascii two_features 1); reflexivity.
Defined.

(** ** Inputs that are not a list of well-formed records *)

(** X12. The script ends without an exception on an input that is not
    a list only when the input is the empty string or the empty dict;
    it then finds no passing test and no candidate, and prints the two
    headers with an empty list between them. *)
Theorem script_not_a_list lower (features : json) g :
  exit (script lower features) = OK g ->
  is_list features = false ->
  (features = JStr "" \/ features = JObj ∅) /\
  g_passing_tests g = ∅ /\
  g_candidates g = [] /\
  stdout (script lower features) = passing_report ∅ ++ eligible_header.
Proof.
  intros Hrun Hlist.
  pose proof Hrun as (cs & HP & _)%script_OK.
  unfold passing_tests in HP. apply bind_OK in HP as (l & Hl & HP).
  assert (Hcase : features = JStr "" \/ features = JObj ∅).
  { destruct features as [| | | |s|l'|m]; try discriminate;
      injection Hl as <-.
    - left. f_equal. apply code_points_nil.
      destruct (code_points s); [done|discriminate].
    - right. f_equal. apply map_to_list_empty_iff.
      destruct (map_to_list m); [done|discriminate]. }
  split; [done|].
  destruct Hcase as [-> | ->]; revert Hrun; unfold script; simpl;
    by intros [= <-].
Qed.

Lemma script_not_a_list_witness :
  exit (script lower_ascii (JObj ∅))
    = OK {| g_passing_tests := ∅; g_candidates := [] |} /\
  is_list (JObj ∅) = false /\
  (JObj ∅ = JStr "" \/ JObj ∅ = JObj ∅) /\
  g_passing_tests {| g_passing_tests := ∅; g_candidates := [] |} = ∅ /\
  g_candidates {| g_passing_tests := ∅; g_candidates := [] |} = [] /\
  stdout (script lower_ascii (JObj ∅)) = passing_report ∅ ++ eligible_header.
Proof.
  split; [reflexivity|]. split; [reflexivity|].
  apply (script_not_a_list lower_ascii (JObj ∅)
           {| g_passing_tests := ∅; g_candidates := [] |}); reflexivity.
Defined.

(** X13. In a list of dicts, one record whose [passes] has a false
    truth value and whose [description] is not a string stops the
    script in the second loop: the report of the passing tests is
    printed, no candidate is. *)
Theorem description_not_str_aborts lower (fs : list json) (k : nat) m v :
  forallb is_dict fs = true ->
  fs !! k = Some (JObj m) ->
  truthy (default (JBool true) (m !! "passes")) = false ->
  m !! "description" = Some v ->
  is_str v = false ->
  exists P e,
    passing_tests (JArr fs) = OK P /\
    script lower (JArr fs) = {| stdout := passing_report P; exit := Raise e |}.
Proof.
  intros Hfs Hk Hp Hd Hv. rewrite forallb_forall in Hfs.
  assert (Hobj : Forall (λ f, exists m, f = JObj m) fs).
  { apply Forall_forall. intros f Hf%list_elem_of_In%Hfs.
    by apply is_dict_true. }
  destruct (passing_loop_total fs 0 ∅ Hobj) as [P HP].
  assert (Hrun : passing_tests (JArr fs) = OK P) by done.
  exists P. unfold script. rewrite Hrun.
  destruct (candidates lower P (JArr fs)) as [cs|e] eqn:Hcs; [|by exists e].
  exfalso. unfold candidates in Hcs. simpl in Hcs.
  destruct (candidates_loop_each lower _ _ _ _ _ Hcs k _ Hk) as [r Hr].
  revert Hr. unfold eligible, get, mbind, result_mbind, result_bind.
  rewrite Hp, Hd. simpl. by destruct v.
Qed.

Lemma description_not_str_aborts_witness :
  forallb is_dict [JObj (list_to_map [("passes", JBool false);
                                      ("description", JInt 7)])] = true /\
  [JObj (list_to_map [("passes", JBool false); ("description", JInt 7)])]
    !! 0%nat
    = Some (JObj (list_to_map [("passes", JBool false);
                               ("description", JInt 7)])) /\
  exists P e,
    passing_tests
      (JArr [JObj (list_to_map [("passes", JBool false);
                                ("description", JInt 7)])]) = OK P /\
    script lower_ascii
      (JArr [JObj (list_to_map [("passes", JBool false);
                                ("description", JInt 7)])])
      = {| stdout := passing_report P; exit := Raise e |}.
Proof.
  split; [reflexivity|]. split; [reflexivity|].
  apply (description_not_str_aborts lower_ascii
           [JObj (list_to_map [("passes", JBool false);
                               ("description", JInt 7)])]
           0 (list_to_map [("passes", JBool false); ("description", JInt 7)])
           (JInt 7)); reflexivity.
Defined.

(** ** The whole script *)

(** X14. The script prints the first line of a candidate block only
    after the file was opened, its text was parsed, and both loops
    ended with at least one candidate. *)
Theorem blocks_only_after_loops lower json_load (file : option string) :
  (0 < count_blocks (stdout (main lower json_load file)))%nat ->
  exists text features P cs,
    file = Some text /\
    json_load text = Some features /\
    passing_tests features = OK P /\
    candidates lower P features = OK cs /\
    cs <> [].
Proof.
  unfold main. destruct file as [text|]; [|intros H; cbn in H; lia].
  destruct (json_load text) as [features|] eqn:Hload;
    [|intros H; cbn in H; lia].
  rewrite script_eq.
  destruct (passing_tests features) as [P|e] eqn:HP;
    [|intros H; cbn in H; lia].
  destruct (candidates lower P features) as [cs|e] eqn:Hcs;
    [|cbv [stdout]; rewrite count_blocks_passing_report; lia].
  cbv zeta. cbv [stdout].
  rewrite !count_blocks_app, count_blocks_passing_report.
  change (count_blocks eligible_header) with 0%nat. intros Hblocks.
  exists text, features, P, cs. split_and!; [done..|].
  intros ->. cbn in Hblocks. lia.
Qed.

Lemma blocks_only_after_loops_witness :
  (0 < count_blocks
         (stdout (main lower_ascii (λ _, Some (JArr two_features))
                    (Some "[...]"))))%nat /\
  exists text features P cs,
    Some "[...]" = Some text /\
    (λ _ : string, Some (JArr two_features)) text = Some features /\
    passing_tests features = OK P /\
    candidates lower_ascii P features = OK cs /\
    cs <> [].
Proof.
  assert (H : (0 < count_blocks
                     (stdout (main lower_ascii
                                (λ _, Some (JArr two_features))
                                (Some "[...]"))))%nat).
  { vm_compute. lia. }
  split; [exact H|].
  exact (blocks_only_after_loops lower_ascii (λ _, Some (JArr two_features))
           (Some "[...]") H).
Defined.
